(** * DS14: content-based movie recommender

    A shallow embedding of the Python sources
    - [src/recsys/base.py]  (class [ContentBaseRecSys]),
    - [src/recsys/utils.py] (function [parse]),
    - [src/api/omdb.py]     (class [OMDBApi]),
    followed by the properties of the specification that concern them.

    Conventions.  Python [int] is [Z]; [str] is [string]; a similarity
    score (a finite float that the code only ever compares) is a rational
    [Q]; a pandas [DataFrame] or [Series] is the list of its rows or of its
    (label, value) pairs, in storage order; an optional argument that the
    code tests with [if x:] is an [option (list _)] with Python's
    truthiness; a call that can raise returns a [result].  Library routines
    whose behaviour the sources do not fix ([Series.sort_values],
    [ast.literal_eval], [requests.get]) are section variables constrained by
    their documented contract, and each has a concrete instance used to run
    examples. *)

From Stdlib Require Import ZArith QArith List String Ascii Bool Lia.
From Stdlib Require Import Permutation Sorted.
From Stdlib Require OrderedTypeEx.
Import ListNotations.

Close Scope Q_scope.
Open Scope string_scope.
Open Scope list_scope.
Open Scope Z_scope.

(** ** Exceptions and the error monad *)

Inductive exception : Set :=
| IndexError
| KeyError
| TypeError
| ValueError
| SyntaxError
| RequestException
| JSONDecodeError.

Inductive result (A : Type) : Type :=
| Ok (a : A)
| Raise (e : exception).

Arguments Ok {A} a.
Arguments Raise {A} e.

Definition bind {A B : Type} (c : result A) (k : A -> result B) : result B :=
  match c with
  | Ok a => k a
  | Raise e => Raise e
  end.

Notation "x <- c ;; k" := (bind c (fun x => k))
  (at level 61, c at next level, right associativity).

(** [try: c  except (caught): return handler]. *)
Definition try_except {A : Type} (c : result A) (caught : exception -> bool)
    (handler : A) : result A :=
  match c with
  | Ok a => Ok a
  | Raise e => if caught e then Ok handler else Raise e
  end.

Definition is_IndexError (e : exception) : bool :=
  match e with
  | IndexError => true
  | _ => false
  end.

Section Comprehensions.

Context {A B : Type}.

(** A list comprehension [[x for x in l if p(x)]] whose condition can
    raise: the first exception aborts the comprehension. *)
Definition comprehension (p : A -> result bool) : list A -> result (list A) :=
  fix go (l : list A) : result (list A) :=
    match l with
    | [] => Ok []
    | x :: r =>
        b <- p x ;;
        rest <- go r ;;
        Ok (if b then x :: rest else rest)
    end.

(** [[f(x) for x in l]] with a body that can raise. *)
Definition for_each (f : A -> result B) : list A -> result (list B) :=
  fix go (l : list A) : result (list B) :=
    match l with
    | [] => Ok []
    | x :: r =>
        y <- f x ;;
        rest <- go r ;;
        Ok (y :: rest)
    end.

End Comprehensions.

(** ** Python built-ins used by the sources *)

Module Py.

(** [if x:] for an argument that is [None] or a collection. *)
Definition truthy {A : Type} (x : option (list A)) : bool :=
  match x with
  | Some (_ :: _) => true
  | _ => false
  end.

(** The elements iterated by [for e in x], for an [x] that passed [if x:]. *)
Definition elems {A : Type} (x : option (list A)) : list A :=
  match x with
  | Some l => l
  | None => []
  end.

(** [x in l] for a list (or set) of strings. *)
Definition list_in (x : string) (l : list string) : bool :=
  existsb (String.eqb x) l.

(** [i in l] for a list of integer labels. *)
Definition label_in (i : Z) (l : list Z) : bool :=
  existsb (Z.eqb i) l.

(** [sub in s] for two strings: substring containment. *)
Definition str_in (sub s : string) : bool :=
  match String.index 0 sub s with
  | Some _ => true
  | None => false
  end.

(** Normalisation of one bound of a slice over a sequence of length [n]:
    a negative bound counts from the end, and both are clamped. *)
Definition slice_bound (n i : Z) : Z :=
  if i <? 0 then Z.max 0 (i + n) else Z.min i n.

(** [l[start:stop]]. *)
Definition slice {A : Type} (start stop : Z) (l : list A) : list A :=
  let n := Z.of_nat (List.length l) in
  let a := slice_bound n start in
  let b := slice_bound n stop in
  firstn (Z.to_nat (b - a)) (skipn (Z.to_nat a) l).

End Py.

(** ** [recsys/base.py] *)

Module Recsys.

(** One row of [self.movies] after [_init_movies]: the index label [id],
    the [genres] column already parsed into a list of names, the [cast]
    column as the names [eval] yields, [production_countries] still the
    raw serialized text (only [genres] is parsed on load), and the two
    nullable text columns.  The record describes rows whose [cast] and
    [production_countries] cells are well formed: an empty (NaN) or
    unevaluable cell, on which the code raises [TypeError] when a filter
    reads it, has no counterpart here, and the properties below that
    conclude how a call ends are stated for calls that read neither
    column. *)
Record Movie : Set := {
  id : Z;
  title : string;
  original_title : string;
  genres : list string;
  cast : list string;
  production_countries : string;
  homepage : option string;
  overview : option string
}.

(** A [Series] of scores labelled by identifier. *)
Definition Series : Set := list (Z * Q).

Record ContentBaseRecSys : Set := {
  distance : list (Z * Series);
  movies : list Movie
}.

(** [self.movies.loc[index]]: the row labelled [index]; [KeyError] when
    the label is absent.  Index labels are the primary key of the table:
    for a label that several rows carry pandas yields all of them, and the
    properties below whose statement depends on the difference assume
    [NoDup (map id rows)]. *)
Fixpoint loc (rows : list Movie) (index : Z) : result Movie :=
  match rows with
  | [] => Raise KeyError
  | m :: r => if id m =? index then Ok m else loc r index
  end.

(** [self.distance.loc[movie_index]]. *)
Fixpoint distance_loc (rows : list (Z * Series)) (movie_index : Z)
  : result Series :=
  match rows with
  | [] => Raise KeyError
  | (i, row) :: r => if i =? movie_index then Ok row else distance_loc r movie_index
  end.

(** [self.movies[self.movies['title'] == title]]: the rows whose title
    equals the query, in load order. *)
Definition rows_with_title (rows : list Movie) (t : string) : list Movie :=
  filter (fun m => String.eqb (title m) t) rows.

(** [....index[0]] / [....values[0]] on a selection: [IndexError] when the
    selection is empty. *)
Definition first_of {A : Type} (l : list A) : result A :=
  match l with
  | [] => Raise IndexError
  | x :: _ => Ok x
  end.

(** Line 100: [self.movies[self.movies['title'] == title].index[0]]. *)
Definition movie_index_of (self : ContentBaseRecSys) (t : string) : result Z :=
  first_of (map id (rows_with_title (movies self) t)).

(** The three per-row tests the filters use. *)
Definition genre_test (gs : list string) (m : Movie) : bool :=
  existsb (fun genre => Py.list_in genre (genres m)) gs.

Definition actor_test (actor : list string) (m : Movie) : bool :=
  existsb (fun person => Py.list_in person actor) (cast m).

Definition country_test (country : list string) (m : Movie) : bool :=
  existsb (fun country_i => Py.str_in country_i (production_countries m)) country.

(** The [filter_movies_by_*] methods: one pass over [iterrows()]. *)
Definition collect (test : Movie -> bool) (self : ContentBaseRecSys) : list Z :=
  map id (filter test (movies self)).

Definition filter_movies_by_genre (self : ContentBaseRecSys) (gs : list string) :=
  collect (genre_test gs) self.

Definition filter_movies_by_actor (self : ContentBaseRecSys) (actor : list string) :=
  collect (actor_test actor) self.

Definition filter_movies_by_country (self : ContentBaseRecSys) (country : list string) :=
  collect (country_test country) self.

Definition filter_movies_by_genre_and_actor (self : ContentBaseRecSys)
    (gs actor : list string) :=
  collect (fun m => genre_test gs m || actor_test actor m) self.

Definition filter_movies_by_genre_and_country (self : ContentBaseRecSys)
    (gs country : list string) :=
  collect (fun m => genre_test gs m || country_test country m) self.

(** [distances[distances.index.isin(labels)]]. *)
Definition isin (distances : Series) (labels : list Z) : Series :=
  filter (fun e => Py.label_in (fst e) labels) distances.


(** One concrete [sort_values(ascending=False)]: an insertion sort that
    leaves entries of equal score in their column order.  It compares
    scores only; identifiers are never looked at. *)
Fixpoint insert_desc (x : Z * Q) (l : Series) : Series :=
  match l with
  | [] => [x]
  | y :: r => if Qle_bool (snd y) (snd x) then x :: y :: r
              else y :: insert_desc x r
  end.

Fixpoint stable_sort_values (l : Series) : Series :=
  match l with
  | [] => []
  | x :: r => insert_desc x (stable_sort_values r)
  end.

Section Engine.

(** [Series.sort_values(ascending=False)]. *)
Variable sort_values : Series -> Series.

Variable self : ContentBaseRecSys.

(** One narrowing step of [get_top_k_movies] (lines 130-133, 134-137,
    138-142): skipped when the argument is falsy; otherwise every label
    of [distances] is looked up in [self.movies] and tested. *)
Definition narrow (arg : option (list string))
    (test : list string -> Movie -> bool) (distances : Series)
  : result Series :=
  if Py.truthy arg then
    filtered_indices <-
      comprehension
        (fun index => m <- loc (movies self) index ;; Ok (test (Py.elems arg) m))
        (map fst distances) ;;
    Ok (isin distances filtered_indices)
  else Ok distances.

(** Lines 127-142 of [get_top_k_movies]: the value of the local
    [distances] when the final slice is taken. *)
Definition filtered_distances (movie_index : Z)
    (filtered_movies : option (list Z))
    (gs actor country : option (list string)) : result Series :=
  row <- distance_loc (distance self) movie_index ;;
  let distances := sort_values row in
  let distances :=
    if Py.truthy filtered_movies
    then isin distances (Py.elems filtered_movies)
    else distances in
  distances <- narrow gs genre_test distances ;;
  distances <- narrow actor actor_test distances ;;
  narrow country country_test distances.

(** Lines 143-144: [distances.index[1:top_k + 1]]. *)
Definition get_top_k_movies (movie_index top_k : Z)
    (filtered_movies : option (list Z))
    (gs actor country : option (list string)) : result (list Z) :=
  distances <- filtered_distances movie_index filtered_movies gs actor country ;;
  Ok (Py.slice 1 (top_k + 1) (map fst distances)).

(** Lines 101-106: the chain of conditional expressions. *)
Definition select_filtered_movies (gs actor country : option (list string))
  : option (list Z) :=
  if Py.truthy gs && Py.truthy country
  then Some (filter_movies_by_genre_and_country self (Py.elems gs) (Py.elems country))
  else if Py.truthy gs && Py.truthy actor
  then Some (filter_movies_by_genre_and_actor self (Py.elems gs) (Py.elems actor))
  else if Py.truthy gs
  then Some (filter_movies_by_genre self (Py.elems gs))
  else if Py.truthy actor
  then Some (filter_movies_by_actor self (Py.elems actor))
  else if Py.truthy country
  then Some (filter_movies_by_country self (Py.elems country))
  else None.

(** [self.movies.loc[top_movies_indices, 'title'].tolist()]. *)
Definition titles_of (indices : list Z) : result (list string) :=
  for_each (fun i => m <- loc (movies self) i ;; Ok (title m)) indices.

Definition recommendation (t : string) (top_k : Z)
    (gs actor country : option (list string)) : result (list string) :=
  movie_index <- movie_index_of self t ;;
  let filtered_movies := select_filtered_movies gs actor country in
  top_movies_indices <-
    get_top_k_movies movie_index top_k filtered_movies gs actor country ;;
  titles_of top_movies_indices.

Definition update_recommendations (new_title : string) (top_k : Z)
    (gs actor country : option (list string)) : result (list string) :=
  recommendation new_title top_k gs actor country.

End Engine.

(** The accessors used for rendering.  A cell that is NaN is [None]; a
    Python return value that is either [None] or a string is an
    [option string]. *)

(** [pd.isna(x)] / [pd.isnull(x)] on a cell. *)
Definition isna (x : option string) : bool :=
  match x with
  | None => true
  | Some _ => false
  end.

Definition get_movie_url (self : ContentBaseRecSys) (movie_title : string)
  : result string :=
  h <- first_of (map homepage (rows_with_title (movies self) movie_title)) ;;
  let movie_homepage := if isna h then None else h in
  Ok (match movie_homepage with
      | Some (String c url) => String c url
      | _ => ""
      end).

Definition get_original_title (self : ContentBaseRecSys) (movie_title : string)
  : result string :=
  try_except
    (first_of (map original_title (rows_with_title (movies self) movie_title)))
    is_IndexError "".

Definition get_overview (self : ContentBaseRecSys) (movie_title : string)
  : result (option string) :=
  try_except
    (o <- first_of (map overview (rows_with_title (movies self) movie_title)) ;;
     Ok (if isna o then None else o))
    is_IndexError (Some "").

End Recsys.

(** ** [recsys/utils.py] *)

Module Utils.

(** The Python values a literal can denote.  A dict is the list of the
    entries of its display, in order; a later entry overrides an earlier
    one with an equal key. *)
#[warnings="-register-all"]
Inductive pyvalue : Set :=
| PyNone
| PyBool (b : bool)
| PyInt (z : Z)
| PyStr (s : string)
| PyList (items : list pyvalue)
| PyDict (entries : list (pyvalue * pyvalue)).

(** What [parse] can be handed by [Series.apply]: [None], the float NaN
    of an empty cell, or the text of the cell. *)
Inductive column_value : Set :=
| CNone
| CNaN
| CText (s : string).

(** [for item in v]: lists yield their items, dicts their keys, strings
    their characters; the other values are not iterable. *)
Definition iterate (v : pyvalue) : result (list pyvalue) :=
  match v with
  | PyList items => Ok items
  | PyDict entries => Ok (map fst entries)
  | PyStr s => Ok (map (fun c => PyStr (String c "")) (list_ascii_of_string s))
  | _ => Raise TypeError
  end.

(** [d[k]] on the entries of a dict display, for a string key [k]. *)
Fixpoint dict_get (entries : list (pyvalue * pyvalue)) (k : string)
  : option pyvalue :=
  match entries with
  | [] => None
  | (key, v) :: r =>
      match dict_get r k with
      | Some later => Some later
      | None =>
          match key with
          | PyStr s => if String.eqb s k then Some v else None
          | _ => None
          end
      end
  end.

(** [item['name']]: [KeyError] on a dict without that key, [TypeError] on
    anything that is not a dict. *)
Definition getitem_name (item : pyvalue) : result pyvalue :=
  match item with
  | PyDict entries =>
      match dict_get entries "name" with
      | Some v => Ok v
      | None => Raise KeyError
      end
  | _ => Raise TypeError
  end.

(** [except (ValueError, SyntaxError)]. *)
Definition is_ValueError_or_SyntaxError (e : exception) : bool :=
  match e with
  | ValueError | SyntaxError => true
  | _ => false
  end.

Section Parse.

(** [ast.literal_eval] on a string. *)
Variable literal_eval : string -> result pyvalue.

(** [ast.literal_eval] on what [parse] receives: an object that is
    neither a string nor a syntax node is a malformed node. *)
Definition literal_eval_object (parsed_column : column_value)
  : result pyvalue :=
  match parsed_column with
  | CText s => literal_eval s
  | _ => Raise ValueError
  end.

Definition parse (parsed_column : column_value) : result (list pyvalue) :=
  match parsed_column with
  | CNone => Ok []
  | _ =>
      try_except
        (parsed_list <- literal_eval_object parsed_column ;;
         items <- iterate parsed_list ;;
         for_each getitem_name items)
        is_ValueError_or_SyntaxError []
  end.

End Parse.

(** *** A reader for literals

    A concrete [ast.literal_eval] for the fragment of Python's literal
    syntax that the serialized columns use: lists and dicts (a trailing
    comma allowed), strings in single or double quotes without escapes,
    unsigned decimal integers, and the names [None], [True], [False].
    As in Python the text is first checked for syntax ([SyntaxError]) and
    only then converted, where any other name is a malformed node
    ([ValueError]) and an unhashable key a [TypeError]. *)

Inductive token : Set :=
| TLBrack | TRBrack | TLBrace | TRBrace | TComma | TColon
| TStr (s : string)
| TInt (z : Z)
| TName (s : string).

Inductive char_class : Set :=
| Space
| Punct (t : token)
| Quote
| Word
| Other.

Definition double_quote : ascii := ascii_of_nat 34.

Definition between (lo hi : N) (c : ascii) : bool :=
  let n := N_of_ascii c in
  ((lo <=? n) && (n <=? hi))%N.

Definition is_digit (c : ascii) : bool := between 48 57 c.

Definition is_word_char (c : ascii) : bool :=
  is_digit c || between 65 90 c || between 97 122 c || Ascii.eqb c "_".

Definition classify (c : ascii) : char_class :=
  if Ascii.eqb c " " || between 9 10 c || between 12 13 c then Space
  else if Ascii.eqb c "[" then Punct TLBrack
  else if Ascii.eqb c "]" then Punct TRBrack
  else if Ascii.eqb c "{" then Punct TLBrace
  else if Ascii.eqb c "}" then Punct TRBrace
  else if Ascii.eqb c "," then Punct TComma
  else if Ascii.eqb c ":" then Punct TColon
  else if Ascii.eqb c "'" || Ascii.eqb c double_quote then Quote
  else if is_word_char c then Word
  else Other.

Definition decimal (w : string) : Z :=
  fold_left (fun acc c => 10 * acc + Z.of_N (N_of_ascii c - 48))
            (list_ascii_of_string w) 0.

(** A run of word characters: a decimal integer (no leading zero unless
    it is zero), or a name; digits followed by letters are no token. *)
Definition word_token (w : string) : result token :=
  match w with
  | EmptyString => Raise SyntaxError
  | String c _ =>
      if forallb is_digit (list_ascii_of_string w) then
        if Ascii.eqb c "0" && negb (decimal w =? 0) then Raise SyntaxError
        else Ok (TInt (decimal w))
      else if is_digit c then Raise SyntaxError
      else Ok (TName w)
  end.

Inductive lex_mode : Set :=
| Idle
| InStr (q : ascii) (acc : string)
| InWord (acc : string).

Definition pending (mode : lex_mode) : result (list token) :=
  match mode with
  | InWord acc => t <- word_token acc ;; Ok [t]
  | _ => Ok []
  end.

Definition word_so_far (mode : lex_mode) : string :=
  match mode with
  | InWord acc => acc
  | _ => ""
  end.

Fixpoint lex (mode : lex_mode) (text : string) : result (list token) :=
  match text with
  | EmptyString =>
      match mode with
      | InStr _ _ => Raise SyntaxError
      | _ => pending mode
      end
  | String c rest =>
      match mode with
      | InStr q acc =>
          if Ascii.eqb c q
          then ts <- lex Idle rest ;; Ok (TStr acc :: ts)
          else lex (InStr q (acc ++ String c "")) rest
      | _ =>
          match classify c with
          | Word => lex (InWord (word_so_far mode ++ String c "")) rest
          | Space =>
              done <- pending mode ;;
              ts <- lex Idle rest ;; Ok (done ++ ts)
          | Punct t =>
              done <- pending mode ;;
              ts <- lex Idle rest ;; Ok (done ++ t :: ts)
          | Quote =>
              done <- pending mode ;;
              ts <- lex (InStr c "") rest ;; Ok (done ++ ts)
          | Other => Raise SyntaxError
          end
      end
  end.

(** Syntax nodes, before conversion. *)
#[warnings="-register-all"]
Inductive node : Set :=
| NStr (s : string)
| NInt (z : Z)
| NName (s : string)
| NList (items : list node)
| NDict (entries : list (node * node)).

(** Recursive descent.  The fuel bounds the nesting and the number of
    items; [read_literal] supplies one unit more than there are tokens. *)
Fixpoint read_node (fuel : nat) (ts : list token) : result (node * list token) :=
  match fuel with
  | O => Raise SyntaxError
  | S fuel' =>
      match ts with
      | TStr s :: r => Ok (NStr s, r)
      | TInt z :: r => Ok (NInt z, r)
      | TName s :: r => Ok (NName s, r)
      | TLBrack :: r => read_items fuel' [] r
      | TLBrace :: r => read_entries fuel' [] r
      | _ => Raise SyntaxError
      end
  end

with read_items (fuel : nat) (acc : list node) (ts : list token)
  : result (node * list token) :=
  match fuel with
  | O => Raise SyntaxError
  | S fuel' =>
      match ts with
      | TRBrack :: r => Ok (NList (rev acc), r)
      | _ =>
          vr <- read_node fuel' ts ;;
          match snd vr with
          | TComma :: r => read_items fuel' (fst vr :: acc) r
          | TRBrack :: r => Ok (NList (rev (fst vr :: acc)), r)
          | _ => Raise SyntaxError
          end
      end
  end

with read_entries (fuel : nat) (acc : list (node * node)) (ts : list token)
  : result (node * list token) :=
  match fuel with
  | O => Raise SyntaxError
  | S fuel' =>
      match ts with
      | TRBrace :: r => Ok (NDict (rev acc), r)
      | _ =>
          kr <- read_node fuel' ts ;;
          match snd kr with
          | TColon :: r1 =>
              vr <- read_node fuel' r1 ;;
              match snd vr with
              | TComma :: r => read_entries fuel' ((fst kr, fst vr) :: acc) r
              | TRBrace :: r => Ok (NDict (rev ((fst kr, fst vr) :: acc)), r)
              | _ => Raise SyntaxError
              end
          | _ => Raise SyntaxError
          end
      end
  end.

Definition hashable (v : pyvalue) : bool :=
  match v with
  | PyList _ | PyDict _ => false
  | _ => true
  end.

Fixpoint convert (n : node) : result pyvalue :=
  match n with
  | NStr s => Ok (PyStr s)
  | NInt z => Ok (PyInt z)
  | NName s =>
      if String.eqb s "None" then Ok PyNone
      else if String.eqb s "True" then Ok (PyBool true)
      else if String.eqb s "False" then Ok (PyBool false)
      else Raise ValueError
  | NList items => vs <- for_each convert items ;; Ok (PyList vs)
  | NDict entries =>
      es <- for_each
              (fun kv =>
                 k <- convert (fst kv) ;;
                 v <- convert (snd kv) ;;
                 if hashable k then Ok (k, v) else Raise TypeError)
              entries ;;
      Ok (PyDict es)
  end.

Definition read_literal (text : string) : result pyvalue :=
  ts <- lex Idle text ;;
  nr <- read_node (S (List.length ts)) ts ;;
  match snd nr with
  | [] => convert (fst nr)
  | _ :: _ => Raise SyntaxError
  end.

End Utils.

(** ** [api/omdb.py] *)

Module Omdb.

(** What the code reads of a [requests.Response]: the status and the
    decoded body, a JSON object with text fields; [response.json()] can
    raise. *)
Record Response : Set := {
  status_code : Z;
  json : result (list (string * string))
}.

Record OMDBApi : Set := {
  api_key : string;
  url : string
}.

Definition placeholder : string :=
  "https://opros.pravovojstatus.ru/wp-content/plugins/Super-Quiz/admin/gifs/loading.gif".

(** [data[key]] guarded by [key in data]. *)
Fixpoint lookup (key : string) (data : list (string * string)) : option string :=
  match data with
  | [] => None
  | (k, v) :: r => if String.eqb k key then Some v else lookup key r
  end.

(** [if path:] for a value that is [None] or a string. *)
Definition truthy (path : option string) : bool :=
  match path with
  | Some (String _ _) => true
  | _ => false
  end.

Section Api.

(** [requests.get(url, params=params)]: a response, or an exception of
    the transport. *)
Variable requests_get : string -> list (string * string) -> result Response.

Variable self : OMDBApi.

Definition _get_image_path (title : string) : result (option string) :=
  let params := [("apikey", api_key self); ("t", title); ("type", "movie")] in
  response <- requests_get (url self) params ;;
  if status_code response =? 200 then
    data <- json response ;;
    match lookup "Poster" data with
    | Some poster => Ok (Some poster)
    | None => Ok None
    end
  else Ok None.

Definition get_posters (titles : list string) : result (list string) :=
  for_each
    (fun title =>
       path <- _get_image_path title ;;
       Ok (if truthy path
           then match path with Some p => p | None => placeholder end
           else placeholder))
    titles.

End Api.

End Omdb.

(** ** Concrete catalogs, matrices and transports *)

Module Scenario.

Import Recsys.

Definition movie (i : Z) (t : string) (gs : list string)
    (countries : string) (synopsis : option string) : Movie :=
  {| id := i; title := t; original_title := t; genres := gs; cast := [];
     production_countries := countries; homepage := None;
     overview := synopsis |}.

Definition usa : string :=
  "[{'iso_3166_1': 'US', 'name': 'United States of America'}]".

Definition france : string :=
  "[{'iso_3166_1': 'FR', 'name': 'France'}]".

(** The catalog of the specification's scenario: A and C are comedies,
    B is an action film; the row of A is {1: 1.0, 2: 0.2, 3: 0.8}. *)
Definition abc : ContentBaseRecSys :=
  {| movies := [ movie 1 "A" ["Comedy"] usa (Some "first");
                 movie 2 "B" ["Action"] usa None;
                 movie 3 "C" ["Comedy"] france (Some "third") ];
     distance := [ (1, [(1, 1%Q); (2, 0.2%Q); (3, 0.8%Q)]);
                   (2, [(1, 0.2%Q); (2, 1%Q); (3, 0.1%Q)]);
                   (3, [(1, 0.8%Q); (2, 0.1%Q); (3, 1%Q)]) ] |}.

(** Two items that share a title, after one that does not. *)
Definition twins : ContentBaseRecSys :=
  {| movies := [ movie 1 "Solo" ["Comedy"] usa None;
                 movie 2 "Twins" ["Comedy"] usa None;
                 movie 3 "Twins" ["Drama"] france None ];
     distance := [ (1, [(1, 1%Q); (2, 0.3%Q); (3, 0.2%Q)]);
                   (2, [(1, 0.3%Q); (2, 1%Q); (3, 0.8%Q)]);
                   (3, [(1, 0.2%Q); (2, 0.8%Q); (3, 1%Q)]) ] |}.


(** Four items for a query that names both a genre and a country. *)
Definition abcd : ContentBaseRecSys :=
  {| movies := [ movie 1 "A" ["Action"] usa None;
                 movie 2 "B" ["Action"] france None;
                 movie 3 "C" ["Comedy"] usa None;
                 movie 4 "D" ["Action"; "Drama"] usa None ];
     distance := [ (1, [(1, 1%Q); (2, 0.9%Q); (3, 0.8%Q); (4, 0.7%Q)]);
                   (2, [(1, 0.9%Q); (2, 1%Q); (3, 0.4%Q); (4, 0.3%Q)]);
                   (3, [(1, 0.8%Q); (2, 0.4%Q); (3, 1%Q); (4, 0.2%Q)]);
                   (4, [(1, 0.7%Q); (2, 0.3%Q); (3, 0.2%Q); (4, 1%Q)]) ] |}.


(** The serialized genre list of the specification and the value it
    denotes. *)
Definition genres_text : string := "[{'name': 'Comedy'}, {'name': 'Action'}]".

Definition genres_value : Utils.pyvalue :=
  Utils.PyList [ Utils.PyDict [(Utils.PyStr "name", Utils.PyStr "Comedy")];
                 Utils.PyDict [(Utils.PyStr "name", Utils.PyStr "Action")] ].

Import Omdb.

Definition api : OMDBApi := {| api_key := "k"; url := "https://www.omdbapi.com" |}.

Definition title_param (params : list (string * string)) : string :=
  match lookup "t" params with
  | Some t => t
  | None => ""
  end.

(** A transport that knows one poster, reports an unknown film the way
    the service does, answers 401 for a third title and loses the
    connection on a fourth. *)
Definition transport (u : string) (params : list (string * string))
  : result Response :=
  let t := title_param params in
  if String.eqb t "Inception" then
    Ok {| status_code := 200;
          json := Ok [("Title", "Inception"); ("Poster", "https://img/inception.jpg")] |}
  else if String.eqb t "Nowhere" then
    Ok {| status_code := 200;
          json := Ok [("Response", "False"); ("Error", "Movie not found!")] |}
  else if String.eqb t "Denied" then
    Ok {| status_code := 401; json := Raise JSONDecodeError |}
  else Raise RequestException.

End Scenario.

(** ** Notions used to state the properties *)

(** [subseq l1 l2]: [l1] is [l2] with some entries left out, the others in
    their order.  Boolean masks and slices produce subsequences. *)
Inductive subseq {A : Type} : list A -> list A -> Prop :=
| subseq_nil : subseq [] []
| subseq_skip (x : A) (l1 l2 : list A) : subseq l1 l2 -> subseq l1 (x :: l2)
| subseq_keep (x : A) (l1 l2 : list A) : subseq l1 l2 -> subseq (x :: l1) (x :: l2).

Module Candidates.

Import Recsys.

(** A per-row test applied to an entry of a similarity row, through the
    catalog row that carries the entry's label. *)
Definition on_row (self : ContentBaseRecSys) (test : Movie -> bool)
    (e : Z * Q) : bool :=
  match loc (movies self) (fst e) with
  | Ok m => test m
  | Raise _ => false
  end.

(** An argument that is falsy constrains nothing; a truthy one requires
    its test. *)
Definition requires (self : ContentBaseRecSys) (arg : option (list string))
    (test : list string -> Movie -> bool) (e : Z * Q) : bool :=
  negb (Py.truthy arg) || on_row self (test (Py.elems arg)) e.

(** Every supplied dimension holds of the entry. *)
Definition passes (self : ContentBaseRecSys)
    (gs actor country : option (list string)) (e : Z * Q) : bool :=
  requires self gs genre_test e
  && requires self actor actor_test e
  && requires self country country_test e.

(** Every label of the row has a row in the catalog. *)
Definition labels_known (self : ContentBaseRecSys) (row : Series) : Prop :=
  forall e, In e row -> exists m, loc (movies self) (fst e) = Ok m.

(** The identifiers, other than the reference item, of the catalog items
    that satisfy the filters: the eligible candidates in the words of the
    specification. *)
Definition eligible_candidates (self : ContentBaseRecSys) (reference : Z)
    (satisfies : Movie -> bool) : list Z :=
  map id (filter (fun m => negb (id m =? reference) && satisfies m) (movies self)).

End Candidates.

(** ** The enumerations of [recsys/base.py] and their use in [app.py] *)

Module Catalog.

Import Recsys.

(** [get_title]: the [title] column, in load order. *)
Definition get_title (self : ContentBaseRecSys) : list string :=
  map title (movies self).

(** [set(l)] for a list of strings: the elements of [l] without
    repetition.  The order in which a Python set is iterated is not
    specified; only membership and size of this list are meaningful. *)
Definition set_of (l : list string) : list string :=
  nodup string_dec l.

(** [get_genres]: the genre lists of all rows, flattened, as a set. *)
Definition get_genres (self : ContentBaseRecSys) : list string :=
  set_of (List.concat (map genres (movies self))).

(** [sorted(l)] for strings: ascending in the order of [str], which
    compares character by character. *)
Fixpoint insert_sorted (x : string) (l : list string) : list string :=
  match l with
  | [] => [x]
  | y :: r => if String.leb x y then x :: y :: r else y :: insert_sorted x r
  end.

Fixpoint sorted (l : list string) : list string :=
  match l with
  | [] => []
  | x :: r => insert_sorted x (sorted r)
  end.

Section Strip.

(** [str.strip()]. *)
Variable strip : string -> string.

(** [get_all_actors]: every name of every cast, stripped, collected in a
    set, and the set sorted. *)
Definition get_all_actors (self : ContentBaseRecSys) : list string :=
  sorted (set_of (map strip (List.concat (map cast (movies self))))).

End Strip.

End Catalog.

(** ** [app.py]: what the page computes from the engine *)

Module App.

Import Recsys.

(** [if s:] for a string. *)
Definition str_truthy (s : string) : bool :=
  match s with
  | EmptyString => false
  | String _ _ => true
  end.

Section Page.

(** [str.strip()]. *)
Variable strip : string -> string.

(** [recsys.translate_to_russian], a call to a translation service. *)
Variable translate_to_russian : string -> result string.

(** [get_all_actors(_recsys)] (lines 76-90): the engine's list with the
    empty string inserted in front. *)
Definition get_all_actors (_recsys : ContentBaseRecSys) : list string :=
  "" :: Catalog.get_all_actors strip _recsys.

(** Lines 234-241 of [main]: the text shown with a poster, from the value
    of [get_overview] and the state of the translation checkbox. *)
Definition movie_overview (translate : bool) (overview : option string)
  : result (option string) :=
  if translate then
    match overview with
    | Some text =>
        if str_truthy text && str_truthy (strip text)
        then translated <- translate_to_russian text ;; Ok (Some translated)
        else Ok overview
    | None => Ok overview
    end
  else Ok overview.

End Page.

End App.

(** ** Further concrete data *)

Module Fixtures.

Import Recsys.

(** A concrete [str.strip()] for text whose white space is ASCII: the
    characters 9 to 13, 28 to 31 and the space. *)
Definition is_space (c : ascii) : bool :=
  let n := N_of_ascii c in
  (((9 <=? n) && (n <=? 13)) || ((28 <=? n) && (n <=? 32)))%N.

Fixpoint lstrip (l : list ascii) : list ascii :=
  match l with
  | c :: r => if is_space c then lstrip r else l
  | [] => []
  end.

Definition ascii_strip (s : string) : string :=
  string_of_list_ascii
    (rev (lstrip (rev (lstrip (list_ascii_of_string s))))).

(** A translation service that answers, and one that is down. *)
Definition echo_translator (text : string) : result string :=
  Ok ("ru: " ++ text)%string.

Definition no_translator (text : string) : result string :=
  Raise RequestException.

Definition film (i : Z) (t : string) (gs players : list string)
    (site : option string) : Movie :=
  {| id := i; title := t; original_title := t ++ " (original)";
     genres := gs; cast := players;
     production_countries := "[{'iso_3166_1': 'NG', 'name': 'Nigeria'}]";
     homepage := site; overview := None |}.

(** A catalog with casts, one name carrying white space, and a matrix
    with a column, 9, that the catalog does not have. *)
Definition troupe : ContentBaseRecSys :=
  {| movies := [ film 1 "A" ["Comedy"] ["Zoe"; " Adam "] (Some "https://a.example");
                 film 2 "B" ["Action"; "Comedy"] ["Adam"; "Mia"] None;
                 film 3 "C" ["Drama"] [] (Some "") ];
     distance := [ (1, [(1, 1%Q); (2, 0.6%Q); (3, 0.4%Q); (9, 0.9%Q)]);
                   (2, [(1, 0.6%Q); (2, 1%Q); (3, 0.5%Q); (9, 0.1%Q)]) ] |}.

(** A consistent catalog with casts; the name Mia occurs only with
    surrounding white space. *)
Definition company : ContentBaseRecSys :=
  {| movies := [ film 1 "A" ["Comedy"] ["Zoe"] None;
                 film 2 "B" ["Action"] ["Zoe"; " Mia "] None;
                 film 3 "C" ["Drama"] ["Adam"] None ];
     distance := [ (1, [(1, 1%Q); (2, 0.6%Q); (3, 0.4%Q)]);
                   (2, [(1, 0.6%Q); (2, 1%Q); (3, 0.5%Q)]);
                   (3, [(1, 0.4%Q); (2, 0.5%Q); (3, 1%Q)]) ] |}.


End Fixtures.

(** * Properties *)

(** ** The error monad *)

Lemma bind_Ok_inv {A B : Type} (c : result A) (k : A -> result B) (b : B) :
  bind c k = Ok b -> exists a, c = Ok a /\ k a = Ok b.
Proof.
  destruct c as [a | e]; simpl; intros H.
  - exists a. split; [reflexivity | exact H].
  - discriminate H.
Qed.

Ltac bind_inv H :=
  let a := fresh "a" in
  let Ha := fresh "Ha" in
  apply bind_Ok_inv in H; destruct H as [a [Ha H]].

Lemma for_each_length {A B : Type} (f : A -> result B) (l : list A) (out : list B) :
  for_each f l = Ok out -> List.length out = List.length l.
Proof.
  revert out. induction l as [| x r IH]; simpl; intros out H.
  - inversion H. reflexivity.
  - bind_inv H. bind_inv H. inversion H; subst. simpl. f_equal. now apply IH.
Qed.

Lemma for_each_Forall2 {A B : Type} (f : A -> result B) (l : list A) (out : list B) :
  for_each f l = Ok out -> Forall2 (fun x y => f x = Ok y) l out.
Proof.
  revert out. induction l as [| x r IH]; simpl; intros out H.
  - inversion H. constructor.
  - bind_inv H. bind_inv H. inversion H; subst. constructor; auto.
Qed.

Lemma for_each_total {A B : Type} (f : A -> result B) (g : A -> B) (l : list A) :
  (forall x, In x l -> f x = Ok (g x)) -> for_each f l = Ok (map g l).
Proof.
  induction l as [| x r IH]; simpl; intros H.
  - reflexivity.
  - rewrite (H x) by auto. simpl. rewrite IH by auto. reflexivity.
Qed.

(** ** Title lookup and the accessors *)

Module RecsysLookup.

Import Recsys Scenario.

Lemma rows_with_title_none (rows : list Movie) (t : string) :
  (forall m, In m rows -> title m <> t) -> rows_with_title rows t = [].
Proof.
  induction rows as [| m r IH]; simpl; intros H.
  - reflexivity.
  - destruct (String.eqb_spec (title m) t) as [E | _].
    + exfalso. apply (H m); auto.
    + apply IH. intros x Hx. apply H. auto.
Qed.

Lemma rows_with_title_first (before after : list Movie) (m : Movie) (t : string) :
  title m = t ->
  (forall x, In x before -> title x <> t) ->
  rows_with_title (before ++ m :: after) t = m :: rows_with_title after t.
Proof.
  intros Hm Hb. unfold rows_with_title. rewrite filter_app.
  fold (rows_with_title before t). rewrite (rows_with_title_none _ _ Hb).
  simpl. rewrite <- Hm. rewrite String.eqb_refl. reflexivity.
Qed.

(** C6.  Title resolution yields the identifier of the first row, in load
    order, whose title equals the query, whatever follows it; when no row
    has that title it raises [IndexError] (the code's form of the
    specification's NotFound), and [recommendation] raises the same
    exception for every choice of the other arguments. *)
Theorem title_resolution_first_match :
  forall (sort_values : Series -> Series) (self : ContentBaseRecSys) (t : string),
    (forall before m after,
        movies self = before ++ m :: after ->
        title m = t ->
        (forall x, In x before -> title x <> t) ->
        movie_index_of self t = Ok (id m))
    /\ ((forall m, In m (movies self) -> title m <> t) ->
        movie_index_of self t = Raise IndexError
        /\ forall top_k gs actor country,
             recommendation sort_values self t top_k gs actor country
             = Raise IndexError).
Proof.
  intros sort_values self t. split.
  - intros before m after Hsplit Hm Hb. unfold movie_index_of.
    rewrite Hsplit, (rows_with_title_first _ _ _ _ Hm Hb). reflexivity.
  - intros Hnone.
    assert (E : movie_index_of self t = Raise IndexError).
    { unfold movie_index_of. rewrite (rows_with_title_none _ _ Hnone). reflexivity. }
    split; [exact E |].
    intros top_k gs actor country. unfold recommendation. rewrite E. reflexivity.
Qed.

Lemma title_resolution_first_match_witness :
  movie_index_of twins "Twins" = Ok 2
  /\ recommendation stable_sort_values twins "Triplets" 5 None None None
     = Raise IndexError.
Proof.
  split.
  - apply (proj1 (title_resolution_first_match stable_sort_values twins "Twins")
             [movie 1 "Solo" ["Comedy"] usa None]
             (movie 2 "Twins" ["Comedy"] usa None)
             [movie 3 "Twins" ["Drama"] france None]).
    + reflexivity.
    + reflexivity.
    + intros x [<- | []]. discriminate.
  - apply (proj2 (title_resolution_first_match stable_sort_values twins "Triplets")).
    intros m [<- | [<- | [<- | []]]]; discriminate.
Defined.

(** C8 as stated fails: for a title that is not in the catalog the
    accessor returns the empty string, not the absent value. *)
Lemma get_overview_unknown_title_is_empty_string :
  get_overview abc "Z" = Ok (Some "") /\ get_overview abc "Z" <> Ok None.
Proof.
  split; [reflexivity | discriminate].
Qed.

(** C8, amended.  [get_overview] never raises; it returns the empty
    string when no row has the given title, and otherwise the synopsis
    stored in the first row with that title: the absent value when that
    synopsis is null, the text itself, unchanged, when it is present. *)
Theorem get_overview_cases :
  forall (self : ContentBaseRecSys) (t : string),
    ((forall m, In m (movies self) -> title m <> t) ->
     get_overview self t = Ok (Some ""))
    /\ (forall before m after,
          movies self = before ++ m :: after ->
          title m = t ->
          (forall x, In x before -> title x <> t) ->
          (overview m = None -> get_overview self t = Ok None)
          /\ (forall text, overview m = Some text ->
                           get_overview self t = Ok (Some text))).
Proof.
  intros self t. split.
  - intros Hnone. unfold get_overview.
    rewrite (rows_with_title_none _ _ Hnone). reflexivity.
  - intros before m after Hsplit Hm Hb.
    assert (E : get_overview self t = Ok (overview m)).
    { unfold get_overview.
      rewrite Hsplit, (rows_with_title_first _ _ _ _ Hm Hb). simpl.
      destruct (overview m); reflexivity. }
    split.
    + intros Hnull. rewrite E, Hnull. reflexivity.
    + intros text Htext. rewrite E, Htext. reflexivity.
Qed.

Lemma get_overview_cases_witness :
  get_overview abc "Z" = Ok (Some "")
  /\ get_overview abc "B" = Ok None
  /\ get_overview abc "C" = Ok (Some "third").
Proof.
  split; [| split].
  - apply (proj1 (get_overview_cases abc "Z")).
    intros m [<- | [<- | [<- | []]]]; discriminate.
  - apply (proj2 (get_overview_cases abc "B")
             [movie 1 "A" ["Comedy"] usa (Some "first")]
             (movie 2 "B" ["Action"] usa None)
             [movie 3 "C" ["Comedy"] france (Some "third")]);
      [reflexivity | reflexivity | intros x [<- | []]; discriminate | reflexivity].
  - apply (proj2 (get_overview_cases abc "C")
             [movie 1 "A" ["Comedy"] usa (Some "first");
              movie 2 "B" ["Action"] usa None]
             (movie 3 "C" ["Comedy"] france (Some "third"))
             []);
      [reflexivity | reflexivity
       | intros x [<- | [<- | []]]; discriminate | reflexivity].
Defined.

End RecsysLookup.

(** ** Slices and subsequences *)

Module PyFacts.

Lemma subseq_refl {A : Type} (l : list A) : subseq l l.
Proof.
  induction l; constructor; assumption.
Qed.

Lemma subseq_trans {A : Type} (l1 l2 l3 : list A) :
  subseq l1 l2 -> subseq l2 l3 -> subseq l1 l3.
Proof.
  intros H12 H23. revert l1 H12.
  induction H23 as [| x l2 l3 H IH | x l2 l3 H IH]; intros l1 H12.
  - exact H12.
  - apply subseq_skip. apply IH. exact H12.
  - inversion H12; subst.
    + apply subseq_skip. apply IH. assumption.
    + apply subseq_keep. apply IH. assumption.
Qed.

Lemma subseq_nil_l {A : Type} (l : list A) : subseq [] l.
Proof.
  induction l; constructor; assumption.
Qed.

Lemma subseq_filter {A : Type} (f : A -> bool) (l : list A) :
  subseq (filter f l) l.
Proof.
  induction l as [| x l IH]; simpl.
  - constructor.
  - destruct (f x); constructor; assumption.
Qed.

Lemma subseq_firstn {A : Type} (n : nat) (l : list A) : subseq (firstn n l) l.
Proof.
  revert n. induction l as [| x l IH]; intros [| n]; simpl.
  - constructor.
  - constructor.
  - apply subseq_nil_l.
  - apply subseq_keep. apply IH.
Qed.

Lemma subseq_skipn {A : Type} (n : nat) (l : list A) : subseq (skipn n l) l.
Proof.
  revert n. induction l as [| x l IH]; intros [| n]; simpl.
  - constructor.
  - constructor.
  - apply subseq_refl.
  - apply subseq_skip. apply IH.
Qed.

Lemma subseq_slice {A : Type} (start stop : Z) (l : list A) :
  subseq (Py.slice start stop l) l.
Proof.
  unfold Py.slice.
  eapply subseq_trans; [apply subseq_firstn | apply subseq_skipn].
Qed.

Lemma subseq_In {A : Type} (l1 l2 : list A) (x : A) :
  subseq l1 l2 -> In x l1 -> In x l2.
Proof.
  induction 1 as [| y l1 l2 H IH | y l1 l2 H IH]; simpl; intuition.
Qed.

Lemma subseq_map {A B : Type} (f : A -> B) (l1 l2 : list A) :
  subseq l1 l2 -> subseq (map f l1) (map f l2).
Proof.
  induction 1; simpl; constructor; assumption.
Qed.

Lemma subseq_NoDup {A : Type} (l1 l2 : list A) :
  subseq l1 l2 -> NoDup l2 -> NoDup l1.
Proof.
  induction 1 as [| y l1 l2 H IH | y l1 l2 H IH]; intros Hnd.
  - constructor.
  - inversion Hnd; subst. auto.
  - inversion Hnd; subst. constructor; [| auto].
    intros Hin. apply (subseq_In _ _ _ H) in Hin. contradiction.
Qed.


Lemma slice_map {A B : Type} (f : A -> B) (start stop : Z) (l : list A) :
  Py.slice start stop (map f l) = map f (Py.slice start stop l).
Proof.
  unfold Py.slice. rewrite length_map, skipn_map, firstn_map. reflexivity.
Qed.

(** [l[1:stop]] never holds the entry at position 0. *)
Lemma slice_from_1_tail {A : Type} (stop : Z) (x : A) (l : list A) :
  subseq (Py.slice 1 stop (x :: l)) l.
Proof.
  unfold Py.slice.
  replace (Z.to_nat (Py.slice_bound (Z.of_nat (List.length (x :: l))) 1)) with 1%nat.
  - simpl skipn. apply subseq_firstn.
  - unfold Py.slice_bound. simpl List.length. change (1 <? 0) with false. cbv iota. lia.
Qed.

(** [l[1:k+1]] for [k >= 0] has [min(k, len(l) - 1)] entries. *)
Lemma slice_top_k_length {A : Type} (k : Z) (l : list A) :
  0 <= k ->
  Z.of_nat (List.length (Py.slice 1 (k + 1) l))
  = Z.min k (Z.max 0 (Z.of_nat (List.length l) - 1)).
Proof.
  intros Hk. unfold Py.slice, Py.slice_bound.
  rewrite length_firstn, length_skipn.
  destruct (Z.ltb_spec (k + 1) 0); [lia |].
  change (1 <? 0) with false. cbv iota. lia.
Qed.

(** [l[1:1]] and [l[1:0]] are empty. *)
Lemma slice_top_k_empty {A : Type} (k : Z) (l : list A) :
  k = 0 \/ k = -1 -> Py.slice 1 (k + 1) l = [].
Proof.
  intros Hk. apply length_zero_iff_nil.
  unfold Py.slice, Py.slice_bound.
  rewrite length_firstn, length_skipn.
  destruct (Z.ltb_spec (k + 1) 0); [lia |].
  change (1 <? 0) with false. cbv iota. lia.
Qed.

(** For [k <= -2] the stop bound counts from the end: [l[1:k+1]] is the
    tail of [l] without its last [-k-1] entries. *)
Lemma slice_top_k_negative {A : Type} (k : Z) (l : list A) :
  k <= -2 ->
  Py.slice 1 (k + 1) l = firstn (Z.to_nat (Z.of_nat (List.length l) + k)) (tl l).
Proof.
  intros Hk. unfold Py.slice, Py.slice_bound.
  destruct (Z.ltb_spec (k + 1) 0); [| lia].
  change (1 <? 0) with false. cbv iota.
  destruct l as [| x l].
  - simpl. rewrite !firstn_nil. reflexivity.
  - replace (Z.to_nat (Z.min 1 (Z.of_nat (List.length (x :: l))))) with 1%nat
      by (simpl List.length; lia).
    simpl skipn. simpl tl. f_equal. simpl List.length. lia.
Qed.

End PyFacts.

(** ** Ranking and filtering *)

Module RecsysRanking.

Import Recsys Candidates Scenario PyFacts.

(** *** The concrete sort meets the contract of [sort_values] *)

Lemma insert_desc_perm (x : Z * Q) (l : Series) :
  Permutation (x :: l) (insert_desc x l).
Proof.
  induction l as [| y r IH]; simpl.
  - apply Permutation_refl.
  - destruct (Qle_bool (snd y) (snd x)).
    + apply Permutation_refl.
    + eapply perm_trans; [apply perm_swap |]. apply perm_skip. exact IH.
Qed.

Lemma stable_sort_values_perm (l : Series) :
  Permutation l (stable_sort_values l).
Proof.
  induction l as [| x r IH]; simpl.
  - apply perm_nil.
  - eapply perm_trans; [apply perm_skip; exact IH | apply insert_desc_perm].
Qed.



(** *** Catalog lookups *)

Lemma loc_Ok (rows : list Movie) (i : Z) (m : Movie) :
  loc rows i = Ok m -> In m rows /\ id m = i.
Proof.
  induction rows as [| x r IH]; simpl; intros H.
  - discriminate H.
  - destruct (Z.eqb_spec (id x) i) as [E | _].
    + inversion H; subst. auto.
    + destruct (IH H). auto.
Qed.

Lemma loc_of_In (rows : list Movie) (m : Movie) :
  In m rows -> exists m', loc rows (id m) = Ok m'.
Proof.
  induction rows as [| x r IH]; simpl; intros H.
  - contradiction.
  - destruct (Z.eqb_spec (id x) (id m)) as [_ | Hne].
    + exists x. reflexivity.
    + destruct H as [E | H]; [subst; now elim Hne | auto].
Qed.

Lemma label_in_iff (i : Z) (l : list Z) : Py.label_in i l = true <-> In i l.
Proof.
  unfold Py.label_in. rewrite existsb_exists. split.
  - intros [x [Hx E]]. apply Z.eqb_eq in E. subst. exact Hx.
  - intros H. exists i. split; [exact H | apply Z.eqb_refl].
Qed.


(** *** Masks *)

Lemma filter_all {A : Type} (f : A -> bool) (l : list A) :
  (forall x, In x l -> f x = true) -> filter f l = l.
Proof.
  induction l as [| x r IH]; simpl; intros H.
  - reflexivity.
  - rewrite (H x) by auto. f_equal. apply IH. auto.
Qed.

Lemma filter_twice {A : Type} (f g : A -> bool) (l : list A) :
  filter f (filter g l) = filter (fun x => g x && f x) l.
Proof.
  induction l as [| x r IH]; simpl.
  - reflexivity.
  - destruct (g x); simpl; [destruct (f x) |]; rewrite IH; reflexivity.
Qed.

Lemma comprehension_total {A : Type} (p : A -> result bool) (q : A -> bool)
    (l : list A) :
  (forall x, In x l -> p x = Ok (q x)) -> comprehension p l = Ok (filter q l).
Proof.
  induction l as [| x r IH]; simpl; intros H.
  - reflexivity.
  - rewrite (H x) by auto. simpl. rewrite IH by auto. reflexivity.
Qed.

Lemma labels_known_subseq (self : ContentBaseRecSys) (d d' : Series) :
  labels_known self d -> subseq d' d -> labels_known self d'.
Proof.
  intros H Hs e He. apply H. eapply subseq_In; eassumption.
Qed.

Lemma isin_labels (f : Z -> bool) (d : Series) :
  isin d (filter f (map fst d)) = filter (fun e => f (fst e)) d.
Proof.
  unfold isin. apply filter_ext_in. intros e He.
  destruct (f (fst e)) eqn:E.
  - apply label_in_iff. apply filter_In. split; [| exact E].
    apply in_map. exact He.
  - destruct (Py.label_in (fst e) (filter f (map fst d))) eqn:E'; [| reflexivity].
    apply label_in_iff in E'. apply filter_In in E'. destruct E'. congruence.
Qed.

Section Engine.

Variable sort_values : Series -> Series.
Variable self : ContentBaseRecSys.

(** One narrowing step is a mask, whatever it returns. *)
Lemma narrow_subseq (arg : option (list string))
    (test : list string -> Movie -> bool) (d d' : Series) :
  narrow self arg test d = Ok d' -> subseq d' d.
Proof.
  unfold narrow. destruct (Py.truthy arg); intros H.
  - bind_inv H. inversion H; subst. apply subseq_filter.
  - inversion H; subst. apply subseq_refl.
Qed.

(** With every label in the catalog, a narrowing step does not raise
    and keeps the entries that meet its requirement. *)
Lemma narrow_spec (arg : option (list string))
    (test : list string -> Movie -> bool) (d : Series) :
  labels_known self d ->
  narrow self arg test d = Ok (filter (requires self arg test) d).
Proof.
  intros Hk. unfold narrow, requires. destruct (Py.truthy arg); simpl.
  - rewrite (comprehension_total _
               (fun i => match loc (movies self) i with
                         | Ok m => test (Py.elems arg) m
                         | Raise _ => false
                         end)).
    + simpl. rewrite isin_labels. reflexivity.
    + intros i Hi. apply in_map_iff in Hi. destruct Hi as [e [<- He]].
      destruct (Hk e He) as [m Hm]. rewrite Hm. reflexivity.
  - rewrite filter_all; [reflexivity | auto].
Qed.

Lemma filtered_distances_subseq (i : Z) (fm : option (list Z))
    (gs actor country : option (list string)) (d : Series) :
  filtered_distances sort_values self i fm gs actor country = Ok d ->
  exists row, distance_loc (distance self) i = Ok row
              /\ subseq d (sort_values row).
Proof.
  unfold filtered_distances. intros H.
  apply bind_Ok_inv in H. destruct H as [row [Hrow H]].
  apply bind_Ok_inv in H. destruct H as [d1 [H1 H]].
  apply bind_Ok_inv in H. destruct H as [d2 [H2 H3]].
  exists row. split; [exact Hrow |].
  apply narrow_subseq in H1, H2, H3.
  eapply subseq_trans; [exact H3 |].
  eapply subseq_trans; [exact H2 |].
  eapply subseq_trans; [exact H1 |].
  destruct (Py.truthy fm); [apply subseq_filter | apply subseq_refl].
Qed.

(** An entry whose catalog row meets a test is among the labels that
    one pass over the catalog collects for any weaker test. *)
Lemma on_row_collected (test test' : Movie -> bool) (e : Z * Q) :
  on_row self test e = true ->
  (forall m, test m = true -> test' m = true) ->
  Py.label_in (fst e) (collect test' self) = true.
Proof.
  unfold on_row, collect. intros H Himp.
  destruct (loc (movies self) (fst e)) as [m | x] eqn:E; [| discriminate H].
  apply loc_Ok in E. destruct E as [Hin Hid].
  apply label_in_iff. rewrite <- Hid. apply in_map.
  apply filter_In. auto.
Qed.

(** The pre-selection of [recommendation] never removes an entry that
    meets every supplied dimension. *)
Lemma select_covers (gs actor country : option (list string)) (e : Z * Q) :
  passes self gs actor country e = true ->
  Py.truthy (select_filtered_movies self gs actor country) = true ->
  Py.label_in (fst e)
    (Py.elems (select_filtered_movies self gs actor country)) = true.
Proof.
  unfold passes, requires, select_filtered_movies.
  destruct (Py.truthy gs), (Py.truthy actor), (Py.truthy country);
    simpl; intros Hp Ht;
    repeat (apply andb_prop in Hp; destruct Hp as [Hp ?]);
    try discriminate Ht;
    unfold filter_movies_by_genre_and_country, filter_movies_by_genre_and_actor,
      filter_movies_by_genre, filter_movies_by_actor, filter_movies_by_country;
    match goal with
    | Hrow : on_row _ _ _ = true |- _ =>
        solve [ eapply on_row_collected;
                [ exact Hrow
                | simpl; intros m Hm; rewrite ?Hm, ?orb_true_r; reflexivity ] ]
    end.
Qed.

Hypothesis sort_values_perm : forall l, Permutation l (sort_values l).

(** With every label of the row in the catalog, the ranking that
    reaches the final slice is the sorted row masked by the conjunction
    of the supplied dimensions. *)
Lemma filtered_distances_spec (i : Z) (row : Series)
    (gs actor country : option (list string)) :
  distance_loc (distance self) i = Ok row ->
  labels_known self row ->
  filtered_distances sort_values self i
    (select_filtered_movies self gs actor country) gs actor country
  = Ok (filter (passes self gs actor country) (sort_values row)).
Proof.
  intros Hrow Hk. unfold filtered_distances. rewrite Hrow. simpl bind.
  set (fm := select_filtered_movies self gs actor country).
  set (d1 := if Py.truthy fm then isin (sort_values row) (Py.elems fm)
             else sort_values row).
  assert (Hs1 : subseq d1 (sort_values row)).
  { unfold d1. destruct (Py.truthy fm); [apply subseq_filter | apply subseq_refl]. }
  assert (Hk0 : labels_known self (sort_values row)).
  { intros e He. apply Hk. eapply Permutation_in; [| exact He].
    apply Permutation_sym, sort_values_perm. }
  assert (Hk1 : labels_known self d1) by (eapply labels_known_subseq; eassumption).
  rewrite (narrow_spec gs genre_test d1 Hk1). simpl bind.
  rewrite narrow_spec
    by (eapply labels_known_subseq; [exact Hk1 | apply subseq_filter]).
  simpl bind.
  rewrite narrow_spec
    by (eapply labels_known_subseq; [exact Hk1 |];
        eapply subseq_trans; apply subseq_filter).
  f_equal. rewrite !filter_twice.
  transitivity (filter (passes self gs actor country) d1).
  { apply filter_ext. intros x. unfold passes. apply andb_assoc. }
  unfold d1. destruct (Py.truthy fm) eqn:Et; [| reflexivity].
  unfold isin. rewrite filter_twice. apply filter_ext_in. intros e _.
  destruct (passes self gs actor country e) eqn:Ep.
  - rewrite andb_true_r. apply select_covers; assumption.
  - apply andb_false_r.
Qed.


End Engine.

Lemma Forall2_map_left {A B C : Type} (f : A -> B) (R : B -> C -> Prop)
    (l : list A) (l' : list C) :
  Forall2 R (map f l) l' -> Forall2 (fun x y => R (f x) y) l l'.
Proof.
  revert l'. induction l as [| x r IH]; simpl; intros l' H.
  - inversion H. constructor.
  - inversion H; subst. constructor; auto.
Qed.

(** *** C1: the reference item *)









(** *** C3: the order of the result *)




(** *** C4: the length of the result *)

(** For [top_k >= 0] the result has [min(top_k, n - 1)] titles, [n] the
    length of the ranking that reaches the final slice; in particular it
    has at most [top_k]. *)
Lemma recommendation_length :
  forall (sort_values : Series -> Series) (self : ContentBaseRecSys)
         (t : string) (top_k : Z) (gs actor country : option (list string))
         (titles : list string),
    0 <= top_k ->
    recommendation sort_values self t top_k gs actor country = Ok titles ->
    exists (i : Z) (d : Series),
      movie_index_of self t = Ok i
      /\ filtered_distances sort_values self i
           (select_filtered_movies self gs actor country) gs actor country = Ok d
      /\ Z.of_nat (List.length titles)
         = Z.min top_k (Z.max 0 (Z.of_nat (List.length d) - 1)).
Proof.
  intros sort_values self t top_k gs actor country titles Hk H.
  unfold recommendation in H.
  apply bind_Ok_inv in H. destruct H as [i [Hi H]].
  apply bind_Ok_inv in H. destruct H as [ids [Hids Htitles]].
  unfold get_top_k_movies in Hids.
  apply bind_Ok_inv in Hids. destruct Hids as [d [Hd Hids]].
  inversion Hids; subst ids; clear Hids.
  exists i, d. repeat split; [exact Hi | exact Hd |].
  apply for_each_length in Htitles. rewrite Htitles.
  rewrite slice_top_k_length by exact Hk. rewrite length_map. reflexivity.
Qed.

(** C4 fails on the code, in the scenario of the specification.  With the
    genre filter Action the only eligible candidate for A is B, so one
    title is due for [top_k = 2]; B is alone in the filtered ranking, at
    position 0, where the final slice drops it, and the result is empty. *)
Theorem top_k_slice_drops_best_candidate :
  eligible_candidates abc 1 (genre_test ["Action"]) = [2]
  /\ filtered_distances stable_sort_values abc 1
       (select_filtered_movies abc (Some ["Action"]) None None)
       (Some ["Action"]) None None
     = Ok [(2, 0.2%Q)]
  /\ recommendation stable_sort_values abc "A" 2 (Some ["Action"]) None None
     = Ok []
  /\ Z.of_nat (List.length (@nil string))
     <> Z.min 2 (Z.of_nat (List.length (eligible_candidates abc 1 (genre_test ["Action"])))).
Proof.
  repeat split; try reflexivity. vm_compute. discriminate.
Qed.

(** *** C5: non-positive [top_k] *)

(** C5 as stated fails: with [top_k = -2] the stop bound of the slice is
    [-1], which counts from the end, and one title is returned. *)
Lemma negative_top_k_counts_from_the_end :
  recommendation stable_sort_values abc "A" (-2) None None None = Ok ["C"].
Proof.
  reflexivity.
Qed.

(** C5, amended.  For a title that resolves to an identifier with a row
    in the matrix, [recommendation] with no filter supplied (each filter
    argument [None] or empty) returns the empty list, and does not raise,
    when [top_k] is 0 or -1.  When [top_k <= -2] the stop bound of the
    slice counts from the end: the titles returned are those of the sorted
    row without its first entry and its last [-top_k - 1] entries. *)
Theorem recommendation_non_positive_top_k :
  forall (sort_values : Series -> Series) (self : ContentBaseRecSys)
         (t : string) (i : Z) (row : Series) (top_k : Z)
         (gs actor country : option (list string)),
    movie_index_of self t = Ok i ->
    distance_loc (distance self) i = Ok row ->
    Py.truthy gs = false ->
    Py.truthy actor = false ->
    Py.truthy country = false ->
    (top_k = 0 \/ top_k = -1 ->
     recommendation sort_values self t top_k gs actor country = Ok [])
    /\ (top_k <= -2 ->
        recommendation sort_values self t top_k gs actor country
        = titles_of self
            (firstn (Z.to_nat (Z.of_nat (List.length (sort_values row)) + top_k))
                    (tl (map fst (sort_values row))))).
Proof.
  intros sort_values self t i row top_k gs actor country Hi Hrow Hg Ha Hc.
  assert (E : recommendation sort_values self t top_k gs actor country
              = titles_of self (Py.slice 1 (top_k + 1) (map fst (sort_values row)))).
  { unfold recommendation. rewrite Hi. simpl bind.
    unfold get_top_k_movies, filtered_distances, narrow, select_filtered_movies.
    rewrite Hrow, Hg, Ha, Hc. reflexivity. }
  rewrite E. split; intros Hk.
  - rewrite slice_top_k_empty by exact Hk. reflexivity.
  - rewrite slice_top_k_negative by exact Hk. rewrite length_map. reflexivity.
Qed.

Lemma recommendation_non_positive_top_k_witness :
  recommendation stable_sort_values abc "A" 0 None None None = Ok []
  /\ recommendation stable_sort_values abc "A" (-1) (Some []) (Some []) (Some [])
     = Ok []
  /\ recommendation stable_sort_values abc "A" (-2) None None None
     = titles_of abc [3].
Proof.
  split; [| split].
  - apply (proj1 (recommendation_non_positive_top_k stable_sort_values abc "A" 1
                    [(1, 1%Q); (2, 0.2%Q); (3, 0.8%Q)] 0 None None None
                    eq_refl eq_refl eq_refl eq_refl eq_refl)).
    left. reflexivity.
  - apply (proj1 (recommendation_non_positive_top_k stable_sort_values abc "A" 1
                    [(1, 1%Q); (2, 0.2%Q); (3, 0.8%Q)] (-1)
                    (Some []) (Some []) (Some [])
                    eq_refl eq_refl eq_refl eq_refl eq_refl)).
    right. reflexivity.
  - apply (proj2 (recommendation_non_positive_top_k stable_sort_values abc "A" 1
                    [(1, 1%Q); (2, 0.2%Q); (3, 0.8%Q)] (-2) None None None
                    eq_refl eq_refl eq_refl eq_refl eq_refl)).
    lia.
Defined.

(** *** C2: a genre filter together with a country filter *)




(** *** C10: the second entry point *)

(** C10.  [update_recommendations] returns what [recommendation] returns
    on the same arguments, exceptions included. *)
Theorem update_recommendations_is_recommendation :
  forall (sort_values : Series -> Series) (self : ContentBaseRecSys)
         (new_title : string) (top_k : Z) (gs actor country : option (list string)),
    update_recommendations sort_values self new_title top_k gs actor country
    = recommendation sort_values self new_title top_k gs actor country.
Proof.
  intros. unfold update_recommendations. reflexivity.
Qed.

End RecsysRanking.

(** ** Parsing of the serialized columns *)

Module UtilsParse.

Import Utils Scenario.

(** The traversal of a parsed value raises nothing that [parse] catches. *)
Lemma names_not_caught (items : list pyvalue) (e : exception) :
  for_each getitem_name items = Raise e -> is_ValueError_or_SyntaxError e = false.
Proof.
  induction items as [| x r IH]; simpl; intros H.
  - discriminate H.
  - destruct (getitem_name x) as [v | e1] eqn:E1; simpl in H.
    + destruct (for_each getitem_name r) as [vs | e2] eqn:E2; simpl in H.
      * discriminate H.
      * inversion H; subst. apply IH. reflexivity.
    + inversion H; subst.
      destruct x; simpl in E1; try (inversion E1; reflexivity).
      destruct (dict_get entries "name"); inversion E1; reflexivity.
Qed.

Lemma traversal_not_caught (v : pyvalue) (e : exception) :
  (items <- iterate v ;; for_each getitem_name items) = Raise e ->
  is_ValueError_or_SyntaxError e = false.
Proof.
  destruct v; simpl; intros H; try (inversion H; reflexivity);
    eapply names_not_caught; exact H.
Qed.

(** C7 as stated fails.  A text that is a well-formed literal of another
    shape is not caught: a record without the key, a list of bare
    strings and a number make [parse] raise. *)
Lemma parse_raises_on_other_shapes :
  parse read_literal (CText "[{'id': 35}]") = Raise KeyError
  /\ parse read_literal (CText "['Comedy', 'Action']") = Raise TypeError
  /\ parse read_literal (CText "7") = Raise TypeError.
Proof.
  repeat split; reflexivity.
Qed.

(** Records that have the key are passed over; the first item after
    them decides. *)
Lemma names_stop_at (good : list (list (pyvalue * pyvalue)))
    (bad : pyvalue) (rest : list pyvalue) (e : exception) :
  Forall (fun entries => dict_get entries "name" <> None) good ->
  getitem_name bad = Raise e ->
  for_each getitem_name (map PyDict good ++ bad :: rest) = Raise e.
Proof.
  intros Hgood Hbad. induction Hgood as [| entries good Hd _ IH]; simpl.
  - rewrite Hbad. reflexivity.
  - destruct (dict_get entries "name") as [v |]; [| exfalso; apply Hd; reflexivity].
    simpl. simpl in IH. rewrite IH. reflexivity.
Qed.

(** C7, amended.  Whatever [ast.literal_eval] is: if it evaluates the
    serialized genre list to the list of its two records, [parse] returns
    the two names in order; [parse] returns the empty list for [None], for
    the NaN of an empty cell, and for every text on which [literal_eval]
    raises [ValueError] or [SyntaxError]; on a text that [literal_eval]
    accepts, [parse] returns what the traversal of the value returns.  In
    particular it raises [TypeError] when the value is [None], a boolean or
    a number, and, when the value is a list, at the first item that is not
    a record with the key ['name']: [TypeError] if that item is not a
    record, [KeyError] if it is a record without the key. *)
Theorem parse_fault_tolerance :
  forall (literal_eval : string -> result pyvalue),
    literal_eval genres_text = Ok genres_value ->
    parse literal_eval (CText genres_text) = Ok [PyStr "Comedy"; PyStr "Action"]
    /\ parse literal_eval CNone = Ok []
    /\ parse literal_eval CNaN = Ok []
    /\ (forall s,
          literal_eval s = Raise ValueError \/ literal_eval s = Raise SyntaxError ->
          parse literal_eval (CText s) = Ok [])
    /\ (forall s v,
          literal_eval s = Ok v ->
          parse literal_eval (CText s)
          = (items <- iterate v ;; for_each getitem_name items))
    /\ (forall s v,
          literal_eval s = Ok v ->
          v = PyNone \/ (exists b, v = PyBool b) \/ (exists z, v = PyInt z) ->
          parse literal_eval (CText s) = Raise TypeError)
    /\ (forall s good bad rest,
          literal_eval s = Ok (PyList (map PyDict good ++ bad :: rest)) ->
          Forall (fun entries => dict_get entries "name" <> None) good ->
          ((forall entries, bad <> PyDict entries) ->
           parse literal_eval (CText s) = Raise TypeError)
          /\ (forall entries,
                bad = PyDict entries ->
                dict_get entries "name" = None ->
                parse literal_eval (CText s) = Raise KeyError)).
Proof.
  intros literal_eval Hgenres.
  assert (Hok : forall s v,
             literal_eval s = Ok v ->
             parse literal_eval (CText s)
             = (items <- iterate v ;; for_each getitem_name items)).
  { intros s v Hv. unfold parse, literal_eval_object. rewrite Hv. simpl bind.
    destruct (items <- iterate v ;; for_each getitem_name items) as [names | e] eqn:E.
    - reflexivity.
    - simpl. rewrite (traversal_not_caught _ _ E). reflexivity. }
  split; [rewrite (Hok _ _ Hgenres); reflexivity |].
  split; [reflexivity |].
  split; [reflexivity |].
  split.
  { intros s [Hs | Hs]; unfold parse, literal_eval_object; rewrite Hs; reflexivity. }
  split; [exact Hok |].
  split.
  { intros s v Hv Hshape. rewrite (Hok _ _ Hv).
    destruct Hshape as [-> | [[b ->] | [z ->]]]; reflexivity. }
  intros s good bad rest Hv Hgood. rewrite (Hok _ _ Hv). simpl bind. split.
  - intros Hbad. apply names_stop_at; [exact Hgood |].
    destruct bad; try reflexivity. contradiction (Hbad entries eq_refl).
  - intros entries -> Hd. apply names_stop_at; [exact Hgood |].
    simpl. rewrite Hd. reflexivity.
Qed.

Lemma parse_fault_tolerance_witness :
  parse read_literal (CText genres_text) = Ok [PyStr "Comedy"; PyStr "Action"]
  /\ parse read_literal CNone = Ok []
  /\ parse read_literal (CText "Comedy") = Ok []
  /\ parse read_literal (CText "[{'name': 'Comedy'}") = Ok []
  /\ parse read_literal (CText "7") = Raise TypeError
  /\ parse read_literal (CText "[{'name': 'Comedy'}, 'Action']") = Raise TypeError
  /\ parse read_literal (CText "[{'name': 'Comedy'}, {'id': 28}]") = Raise KeyError.
Proof.
  destruct (parse_fault_tolerance read_literal)
    as [H1 [H2 [_ [H4 [_ [H6 H7]]]]]].
  - reflexivity.
  - split; [exact H1 | split; [exact H2 | split; [| split; [| split; [| split]]]]].
    + apply H4. left. reflexivity.
    + apply H4. right. reflexivity.
    + apply (H6 "7" (PyInt 7)); [reflexivity |].
      right. right. exists 7. reflexivity.
    + destruct (H7 "[{'name': 'Comedy'}, 'Action']"
                  [[(PyStr "name", PyStr "Comedy")]] (PyStr "Action") [] eq_refl)
        as [Htype _].
      * constructor; [discriminate | constructor].
      * apply Htype. intros entries E. discriminate E.
    + destruct (H7 "[{'name': 'Comedy'}, {'id': 28}]"
                  [[(PyStr "name", PyStr "Comedy")]]
                  (PyDict [(PyStr "id", PyInt 28)]) [] eq_refl)
        as [_ Hkey].
      * constructor; [discriminate | constructor].
      * apply (Hkey [(PyStr "id", PyInt 28)]); reflexivity.
Defined.

End UtilsParse.

(** ** The poster batch *)

Module OmdbPosters.

Import Omdb Scenario.





End OmdbPosters.

(** * Further properties of the sources *)

(** ** [recommendation] and [get_top_k_movies] *)

Module RankingExtras.

Import Recsys Candidates Scenario Fixtures PyFacts RecsysRanking.

Lemma comprehension_In {A : Type} (p : A -> result bool) (l out : list A) (x : A) :
  comprehension p l = Ok out -> In x out -> p x = Ok true.
Proof.
  revert out. induction l as [| y r IH]; simpl; intros out H Hx.
  - inversion H; subst. contradiction.
  - destruct (p y) as [b | e] eqn:Ey; simpl in H; [| discriminate H].
    destruct (comprehension p r) as [rest | e] eqn:Er; simpl in H; [| discriminate H].
    inversion H; subst. destruct b.
    + destruct Hx as [<- | Hx]; [exact Ey | apply (IH rest); auto].
    + apply (IH rest); auto.
Qed.

Lemma loc_absent (rows : list Movie) (i : Z) :
  (forall m, In m rows -> id m <> i) -> loc rows i = Raise KeyError.
Proof.
  induction rows as [| m r IH]; simpl; intros H.
  - reflexivity.
  - destruct (Z.eqb_spec (id m) i) as [E | _].
    + exfalso. apply (H m); auto.
    + apply IH. intros x Hx. apply H. auto.
Qed.

Lemma loc_known (rows : list Movie) (i : Z) :
  In i (map id rows) -> exists m, loc rows i = Ok m.
Proof.
  intros H. apply in_map_iff in H. destruct H as [m [<- Hm]].
  apply loc_of_In. exact Hm.
Qed.

Lemma distance_loc_absent (rows : list (Z * Series)) (i : Z) :
  (forall r, In r rows -> fst r <> i) -> distance_loc rows i = Raise KeyError.
Proof.
  induction rows as [| [j row] r IH]; simpl; intros H.
  - reflexivity.
  - destruct (Z.eqb_spec j i) as [E | _].
    + exfalso. apply (H (j, row)); auto.
    + apply IH. intros x Hx. apply H. auto.
Qed.

Lemma titles_of_known (self : ContentBaseRecSys) (indices : list Z) :
  (forall i, In i indices -> exists m, loc (movies self) i = Ok m) ->
  exists titles, titles_of self indices = Ok titles.
Proof.
  intros H. eexists. unfold titles_of.
  apply (for_each_total _ (fun i => match loc (movies self) i with
                                    | Ok m => title m
                                    | Raise _ => ""
                                    end)).
  intros i Hi. destruct (H i Hi) as [m Hm]. rewrite Hm. reflexivity.
Qed.

Section Engine.

Variable sort_values : Series -> Series.
Variable self : ContentBaseRecSys.

(** What a narrowing step lets through has met the test. *)
Lemma narrow_sound (arg : option (list string))
    (test : list string -> Movie -> bool) (d d' : Series) (e : Z * Q) :
  narrow self arg test d = Ok d' ->
  Py.truthy arg = true ->
  In e d' ->
  exists m, loc (movies self) (fst e) = Ok m /\ test (Py.elems arg) m = true.
Proof.
  unfold narrow. intros H Ht He. rewrite Ht in H.
  apply bind_Ok_inv in H. destruct H as [fi [Hfi H]].
  inversion H; subst d'; clear H.
  unfold isin in He. apply filter_In in He. destruct He as [_ He].
  apply label_in_iff in He.
  apply (comprehension_In _ _ _ _ Hfi) in He.
  destruct (loc (movies self) (fst e)) as [m | x]; simpl in He; [| discriminate He].
  inversion He. exists m. auto.
Qed.

Hypothesis sort_values_perm : forall l, Permutation l (sort_values l).

(** The mask of [filtered_distances], for any pre-selection that does not
    remove an entry meeting every supplied dimension. *)
Lemma filtered_distances_mask (i : Z) (row : Series) (fm : option (list Z))
    (gs actor country : option (list string)) :
  distance_loc (distance self) i = Ok row ->
  labels_known self row ->
  (Py.truthy fm = true ->
   forall e, passes self gs actor country e = true ->
             Py.label_in (fst e) (Py.elems fm) = true) ->
  filtered_distances sort_values self i fm gs actor country
  = Ok (filter (passes self gs actor country) (sort_values row)).
Proof.
  intros Hrow Hk Hcover. unfold filtered_distances. rewrite Hrow. simpl bind.
  set (d1 := if Py.truthy fm then isin (sort_values row) (Py.elems fm)
             else sort_values row).
  assert (Hk1 : labels_known self d1).
  { intros e He. apply Hk.
    eapply Permutation_in; [apply Permutation_sym, sort_values_perm |].
    unfold d1 in He. destruct (Py.truthy fm); [| exact He].
    unfold isin in He. apply filter_In in He. tauto. }
  rewrite (narrow_spec self gs genre_test d1 Hk1). simpl bind.
  rewrite narrow_spec
    by (eapply labels_known_subseq; [exact Hk1 | apply subseq_filter]).
  simpl bind.
  rewrite narrow_spec
    by (eapply labels_known_subseq; [exact Hk1 |];
        eapply subseq_trans; apply subseq_filter).
  f_equal. rewrite !filter_twice.
  transitivity (filter (passes self gs actor country) d1).
  { apply filter_ext. intros x. unfold passes. apply andb_assoc. }
  unfold d1. destruct (Py.truthy fm) eqn:Et; [| reflexivity].
  unfold isin. rewrite filter_twice. apply filter_ext_in. intros e _.
  destruct (passes self gs actor country e) eqn:Ep.
  - rewrite andb_true_r. apply Hcover; [reflexivity | exact Ep].
  - apply andb_false_r.
Qed.

End Engine.

(** X1.  Every title that [recommendation] returns is the title of a
    catalog row whose label is a column of the reference row and that
    meets each filter that was supplied. *)
Theorem returned_titles_pass_filters :
  forall (sort_values : Series -> Series) (self : ContentBaseRecSys)
         (t : string) (top_k : Z) (gs actor country : option (list string))
         (titles : list string),
    (forall l, Permutation l (sort_values l)) ->
    recommendation sort_values self t top_k gs actor country = Ok titles ->
    exists (i : Z) (row : Series),
      movie_index_of self t = Ok i
      /\ distance_loc (distance self) i = Ok row
      /\ Forall
           (fun ttl =>
              exists e m,
                In e row
                /\ loc (movies self) (fst e) = Ok m
                /\ title m = ttl
                /\ (Py.truthy gs = true -> genre_test (Py.elems gs) m = true)
                /\ (Py.truthy actor = true -> actor_test (Py.elems actor) m = true)
                /\ (Py.truthy country = true ->
                    country_test (Py.elems country) m = true))
           titles.
Proof.
  intros sort_values self t top_k gs actor country titles Hperm H.
  unfold recommendation in H.
  apply bind_Ok_inv in H. destruct H as [i [Hi H]].
  apply bind_Ok_inv in H. destruct H as [ids [Hids Htitles]].
  unfold get_top_k_movies in Hids.
  apply bind_Ok_inv in Hids. destruct Hids as [d [Hd Hids]].
  inversion Hids; subst ids; clear Hids.
  destruct (filtered_distances_subseq _ _ _ _ _ _ _ _ Hd) as [row [Hrow Hsub]].
  exists i, row. split; [exact Hi | split; [exact Hrow |]].
  unfold filtered_distances in Hd. rewrite Hrow in Hd. simpl bind in Hd.
  apply bind_Ok_inv in Hd. destruct Hd as [d1 [H1 Hd]].
  apply bind_Ok_inv in Hd. destruct Hd as [d2 [H2 H3]].
  pose proof (narrow_subseq _ _ _ _ _ H2) as S2.
  pose proof (narrow_subseq _ _ _ _ _ H3) as S3.
  rewrite slice_map in Htitles.
  unfold titles_of in Htitles. apply for_each_Forall2 in Htitles.
  apply Forall2_map_left in Htitles.
  assert (Hin : forall e, In e (Py.slice 1 (top_k + 1) d) -> In e d).
  { intros e. apply subseq_In. apply subseq_slice. }
  revert Htitles Hin. generalize (Py.slice 1 (top_k + 1) d). intros es Hf.
  induction Hf as [| e ttl es ts Het _ IH]; intros Hin; constructor.
  - simpl in Het. apply bind_Ok_inv in Het. destruct Het as [m [Hm Het]].
    inversion Het; subst ttl.
    assert (He : In e d) by (apply Hin; left; reflexivity).
    exists e, m. repeat split; try assumption.
    + eapply Permutation_in; [apply Permutation_sym, Hperm |].
      eapply subseq_In; eassumption.
    + intros Ht.
      destruct (narrow_sound self _ _ _ _ e H1 Ht) as [m' [Hm' Htest]].
      * eapply subseq_In; [exact S2 |]. eapply subseq_In; [exact S3 | exact He].
      * congruence.
    + intros Ht.
      destruct (narrow_sound self _ _ _ _ e H2 Ht) as [m' [Hm' Htest]].
      * eapply subseq_In; [exact S3 | exact He].
      * congruence.
    + intros Ht.
      destruct (narrow_sound self _ _ _ _ e H3 Ht He) as [m' [Hm' Htest]].
      congruence.
  - apply IH. intros e' He'. apply Hin. right. exact He'.
Qed.

Lemma returned_titles_pass_filters_witness :
  exists (i : Z) (row : Series),
    movie_index_of troupe "A" = Ok i
    /\ distance_loc (distance troupe) i = Ok row
    /\ Forall
         (fun ttl =>
            exists e m,
              In e row
              /\ loc (movies troupe) (fst e) = Ok m
              /\ title m = ttl
              /\ (Py.truthy (Some ["Comedy"]) = true ->
                  genre_test (Py.elems (Some ["Comedy"])) m = true)
              /\ (Py.truthy (@None (list string)) = true ->
                  actor_test (Py.elems None) m = true)
              /\ (Py.truthy (Some ["Niger"]) = true ->
                  country_test (Py.elems (Some ["Niger"])) m = true))
         ["B"].
Proof.
  apply (returned_titles_pass_filters stable_sort_values troupe "A" 5
           (Some ["Comedy"]) None (Some ["Niger"]) ["B"]).
  - exact stable_sort_values_perm.
  - reflexivity.
Defined.

(** X2.  When every label of the row is in the catalog, the pre-selection
    that [recommendation] hands to [get_top_k_movies] changes nothing: the
    same identifiers come back with [filtered_movies = None]. *)
Theorem preselection_is_redundant :
  forall (sort_values : Series -> Series) (self : ContentBaseRecSys)
         (i : Z) (row : Series) (top_k : Z)
         (gs actor country : option (list string)),
    (forall l, Permutation l (sort_values l)) ->
    distance_loc (distance self) i = Ok row ->
    labels_known self row ->
    get_top_k_movies sort_values self i top_k
      (select_filtered_movies self gs actor country) gs actor country
    = get_top_k_movies sort_values self i top_k None gs actor country.
Proof.
  intros sort_values self i row top_k gs actor country Hperm Hrow Hk.
  unfold get_top_k_movies.
  rewrite (filtered_distances_spec sort_values self Hperm i row) by assumption.
  rewrite (filtered_distances_mask sort_values self Hperm i row None)
    by (try assumption; discriminate).
  reflexivity.
Qed.

Lemma preselection_is_redundant_witness :
  get_top_k_movies stable_sort_values abcd 1 5
    (select_filtered_movies abcd (Some ["Action"]) None (Some ["France"]))
    (Some ["Action"]) None (Some ["France"])
  = get_top_k_movies stable_sort_values abcd 1 5 None
      (Some ["Action"]) None (Some ["France"]).
Proof.
  apply (preselection_is_redundant stable_sort_values abcd 1
           [(1, 1%Q); (2, 0.9%Q); (3, 0.8%Q); (4, 0.7%Q)]).
  - exact stable_sort_values_perm.
  - reflexivity.
  - intros e [<- | [<- | [<- | [<- | []]]]]; eexists; reflexivity.
Defined.

(** X3.  On consistent data [recommendation] with at most a genre filter
    does not raise: if identifiers are unique in the catalog and row labels
    unique in the matrix, the title is in the catalog, its identifier has a
    row in the matrix and every label of that row is in the catalog, then a
    list of titles is returned for every [top_k] and every genre filter,
    no actor or country filter being supplied (these two read the [cast]
    and [production_countries] cells). *)
Theorem recommendation_returns_on_consistent_data :
  forall (sort_values : Series -> Series) (self : ContentBaseRecSys)
         (t : string) (i : Z) (row : Series) (top_k : Z)
         (gs actor country : option (list string)),
    (forall l, Permutation l (sort_values l)) ->
    NoDup (map id (movies self)) ->
    NoDup (map fst (distance self)) ->
    movie_index_of self t = Ok i ->
    distance_loc (distance self) i = Ok row ->
    labels_known self row ->
    Py.truthy actor = false ->
    Py.truthy country = false ->
    exists titles,
      recommendation sort_values self t top_k gs actor country = Ok titles.
Proof.
  intros sort_values self t i row top_k gs actor country
         Hperm _ _ Hi Hrow Hk _ _.
  unfold recommendation. rewrite Hi. simpl bind.
  unfold get_top_k_movies.
  rewrite (filtered_distances_spec sort_values self Hperm i row) by assumption.
  simpl bind. apply titles_of_known.
  intros j Hj. apply (subseq_In _ _ _ (subseq_slice _ _ _)) in Hj.
  apply in_map_iff in Hj. destruct Hj as [e [<- He]].
  apply filter_In in He. destruct He as [He _]. apply Hk.
  eapply Permutation_in; [apply Permutation_sym, Hperm | exact He].
Qed.

Lemma recommendation_returns_on_consistent_data_witness :
  exists titles,
    recommendation stable_sort_values abc "B" 3 (Some ["Comedy"]) None (Some [])
    = Ok titles.
Proof.
  apply (recommendation_returns_on_consistent_data stable_sort_values abc "B" 2
           [(1, 0.2%Q); (2, 1%Q); (3, 0.1%Q)]).
  - exact stable_sort_values_perm.
  - simpl. repeat constructor; simpl; intuition discriminate.
  - simpl. repeat constructor; simpl; intuition discriminate.
  - reflexivity.
  - reflexivity.
  - intros e [<- | [<- | [<- | []]]]; eexists; reflexivity.
  - reflexivity.
  - reflexivity.
Defined.

(** X4.  A title of the catalog whose identifier has no row in the matrix
    makes [recommendation] raise [KeyError], for every [top_k] and every
    genre filter, no actor or country filter being supplied (with one of
    these the pre-selection reads [cast] or [production_countries] cells
    before the matrix is looked at). *)
Theorem recommendation_without_row_raises :
  forall (sort_values : Series -> Series) (self : ContentBaseRecSys)
         (t : string) (i : Z) (top_k : Z)
         (gs actor country : option (list string)),
    movie_index_of self t = Ok i ->
    (forall r, In r (distance self) -> fst r <> i) ->
    Py.truthy actor = false ->
    Py.truthy country = false ->
    recommendation sort_values self t top_k gs actor country = Raise KeyError.
Proof.
  intros sort_values self t i top_k gs actor country Hi Hno _ _.
  unfold recommendation. rewrite Hi. simpl bind.
  unfold get_top_k_movies, filtered_distances.
  rewrite (distance_loc_absent _ _ Hno). reflexivity.
Qed.

Lemma recommendation_without_row_raises_witness :
  recommendation stable_sort_values troupe "C" 5 (Some ["Comedy"]) None (Some [])
  = Raise KeyError.
Proof.
  apply (recommendation_without_row_raises stable_sort_values troupe "C" 3).
  - reflexivity.
  - intros r [<- | [<- | []]]; simpl; discriminate.
  - reflexivity.
  - reflexivity.
Defined.

Lemma select_within_catalog (self : ContentBaseRecSys)
    (gs actor country : option (list string)) (i : Z) :
  In i (Py.elems (select_filtered_movies self gs actor country)) ->
  In i (map id (movies self)).
Proof.
  unfold select_filtered_movies,
    filter_movies_by_genre_and_country, filter_movies_by_genre_and_actor,
    filter_movies_by_genre, filter_movies_by_actor, filter_movies_by_country,
    collect.
  destruct (Py.truthy gs), (Py.truthy actor), (Py.truthy country); simpl;
    intros H; try contradiction;
    apply in_map_iff in H; destruct H as [m [<- Hm]];
    apply in_map; apply filter_In in Hm; tauto.
Qed.

(** X5.  A genre pre-selection that is not empty shields the call from
    labels of the matrix that the catalog lacks: with identifiers unique in
    the catalog and row labels unique in the matrix, if the title resolves,
    its row exists, a genre filter is the only filter supplied and at least
    one catalog row has a requested genre, then [recommendation] returns a
    list, whatever the labels of the row. *)
Theorem preselection_shields_unknown_labels :
  forall (sort_values : Series -> Series) (self : ContentBaseRecSys)
         (t : string) (i : Z) (row : Series) (top_k : Z)
         (gs actor country : option (list string)),
    NoDup (map id (movies self)) ->
    NoDup (map fst (distance self)) ->
    movie_index_of self t = Ok i ->
    distance_loc (distance self) i = Ok row ->
    Py.truthy actor = false ->
    Py.truthy country = false ->
    Py.truthy (select_filtered_movies self gs actor country) = true ->
    exists titles,
      recommendation sort_values self t top_k gs actor country = Ok titles.
Proof.
  intros sort_values self t i row top_k gs actor country _ _ Hi Hrow _ _ Ht.
  unfold recommendation. rewrite Hi. simpl bind.
  unfold get_top_k_movies, filtered_distances. rewrite Hrow, Ht. simpl bind.
  set (d1 := isin (sort_values row)
               (Py.elems (select_filtered_movies self gs actor country))).
  assert (Hk1 : labels_known self d1).
  { intros e He. unfold d1, isin in He. apply filter_In in He.
    destruct He as [_ He]. apply label_in_iff in He.
    apply loc_known. eapply select_within_catalog. exact He. }
  rewrite (narrow_spec self gs genre_test d1 Hk1). simpl bind.
  rewrite narrow_spec
    by (eapply labels_known_subseq; [exact Hk1 | apply subseq_filter]).
  simpl bind.
  rewrite narrow_spec
    by (eapply labels_known_subseq; [exact Hk1 |];
        eapply subseq_trans; apply subseq_filter).
  simpl bind. apply titles_of_known.
  intros j Hj. apply (subseq_In _ _ _ (subseq_slice _ _ _)) in Hj.
  apply in_map_iff in Hj. destruct Hj as [e [<- He]]. apply Hk1.
  do 3 (apply filter_In in He; destruct He as [He _]). exact He.
Qed.

Lemma preselection_shields_unknown_labels_witness :
  exists titles,
    recommendation stable_sort_values troupe "A" 5 (Some ["Comedy"]) None None
    = Ok titles.
Proof.
  apply (preselection_shields_unknown_labels stable_sort_values troupe "A" 1
           [(1, 1%Q); (2, 0.6%Q); (3, 0.4%Q); (9, 0.9%Q)]);
    try reflexivity;
    simpl; repeat constructor; simpl; intuition discriminate.
Defined.

(** X6.  Without filters nothing shields: when the entry ranked second in
    the sorted row carries a label that the catalog lacks and
    [top_k >= 1], [recommendation] raises [KeyError]. *)
Theorem unknown_label_in_result_raises :
  forall (sort_values : Series -> Series) (self : ContentBaseRecSys)
         (t : string) (i : Z) (row : Series) (e0 e1 : Z * Q) (rest : Series)
         (top_k : Z) (gs actor country : option (list string)),
    movie_index_of self t = Ok i ->
    distance_loc (distance self) i = Ok row ->
    sort_values row = e0 :: e1 :: rest ->
    (forall m, In m (movies self) -> id m <> fst e1) ->
    Py.truthy gs = false ->
    Py.truthy actor = false ->
    Py.truthy country = false ->
    1 <= top_k ->
    recommendation sort_values self t top_k gs actor country = Raise KeyError.
Proof.
  intros sort_values self t i row e0 e1 rest top_k gs actor country
         Hi Hrow Hs Hno Hg Ha Hc Hk.
  unfold recommendation. rewrite Hi. simpl bind.
  unfold get_top_k_movies, filtered_distances, narrow, select_filtered_movies.
  rewrite Hrow. simpl bind. rewrite Hg, Ha, Hc, Hs. simpl bind.
  assert (E : exists more,
             Py.slice 1 (top_k + 1) (map fst (e0 :: e1 :: rest)) = fst e1 :: more).
  { unfold Py.slice, Py.slice_bound. cbn [map List.length].
    destruct (Z.ltb_spec (top_k + 1) 0); [lia |].
    change (1 <? 0) with false. cbv iota.
    replace (Z.min 1 (Z.of_nat (S (S (List.length (map fst rest))))))
      with 1 by lia.
    change (Z.to_nat 1) with 1%nat. cbn [skipn].
    destruct (Z.to_nat (Z.min (top_k + 1)
                (Z.of_nat (S (S (List.length (map fst rest))))) - 1))
      as [| n] eqn:En; [lia |].
    eexists. reflexivity. }
  destruct E as [more E]. cbn [map] in E. rewrite E.
  unfold titles_of. simpl. rewrite (loc_absent _ _ Hno). reflexivity.
Qed.

Lemma unknown_label_in_result_raises_witness :
  recommendation stable_sort_values troupe "A" 5 None None None = Raise KeyError.
Proof.
  apply (unknown_label_in_result_raises stable_sort_values troupe "A" 1
           [(1, 1%Q); (2, 0.6%Q); (3, 0.4%Q); (9, 0.9%Q)]
           (1, 1%Q) (9, 0.9%Q) [(2, 0.6%Q); (3, 0.4%Q)]);
    try reflexivity.
  - intros m [<- | [<- | [<- | []]]]; simpl; discriminate.
  - lia.
Defined.

(** X7.  With identifiers unique in the catalog, for [top_k >= 0] the
    list that [recommendation] returns has at most [top_k] titles, and at
    most one fewer than the reference row has columns. *)
Theorem recommendation_at_most_top_k :
  forall (sort_values : Series -> Series) (self : ContentBaseRecSys)
         (t : string) (top_k : Z) (gs actor country : option (list string))
         (titles : list string),
    (forall l, Permutation l (sort_values l)) ->
    NoDup (map id (movies self)) ->
    0 <= top_k ->
    recommendation sort_values self t top_k gs actor country = Ok titles ->
    Z.of_nat (List.length titles) <= top_k
    /\ exists i row,
         movie_index_of self t = Ok i
         /\ distance_loc (distance self) i = Ok row
         /\ Z.of_nat (List.length titles)
            <= Z.max 0 (Z.of_nat (List.length row) - 1).
Proof.
  intros sort_values self t top_k gs actor country titles Hperm _ Hk H.
  destruct (recommendation_length _ _ _ _ _ _ _ _ Hk H) as [i [d [Hi [Hd Hlen]]]].
  split; [lia |].
  destruct (filtered_distances_subseq _ _ _ _ _ _ _ _ Hd) as [row [Hrow Hsub]].
  exists i, row. split; [exact Hi | split; [exact Hrow |]].
  assert (Hle : (List.length d <= List.length row)%nat).
  { rewrite (Permutation_length (Hperm row)).
    clear - Hsub. induction Hsub; simpl; lia. }
  lia.
Qed.

Lemma recommendation_at_most_top_k_witness :
  Z.of_nat (List.length ["C"; "B"]) <= 7
  /\ exists i row,
       movie_index_of abc "A" = Ok i
       /\ distance_loc (distance abc) i = Ok row
       /\ Z.of_nat (List.length ["C"; "B"])
          <= Z.max 0 (Z.of_nat (List.length row) - 1).
Proof.
  apply (recommendation_at_most_top_k stable_sort_values abc "A" 7 None None None).
  - exact stable_sort_values_perm.
  - simpl. repeat constructor; simpl; intuition discriminate.
  - lia.
  - reflexivity.
Defined.

Lemma slice_top_k_prefix {A : Type} (k k' : Z) (l : list A) :
  0 <= k <= k' ->
  Py.slice 1 (k + 1) l = firstn (Z.to_nat k) (Py.slice 1 (k' + 1) l).
Proof.
  intros Hk. unfold Py.slice, Py.slice_bound.
  destruct (Z.ltb_spec (k + 1) 0); [lia |].
  destruct (Z.ltb_spec (k' + 1) 0); [lia |].
  change (1 <? 0) with false. cbv iota.
  rewrite firstn_firstn. f_equal. lia.
Qed.

Lemma for_each_firstn {A B : Type} (f : A -> result B) (n : nat)
    (l : list A) (out : list B) :
  for_each f l = Ok out -> for_each f (firstn n l) = Ok (firstn n out).
Proof.
  revert n out. induction l as [| x r IH]; intros n out H.
  - simpl in H. inversion H; subst. rewrite !firstn_nil. reflexivity.
  - simpl in H. apply bind_Ok_inv in H. destruct H as [y [Hy H]].
    apply bind_Ok_inv in H. destruct H as [rest [Hrest H]].
    inversion H; subst out. destruct n as [| n]; simpl.
    + reflexivity.
    + rewrite Hy. simpl. rewrite (IH n rest Hrest). reflexivity.
Qed.

(** X8.  With identifiers unique in the catalog, asking for fewer titles
    gives a prefix: when [recommendation] returns a list for [top_k'], it
    returns for every [0 <= top_k <= top_k'] the first [top_k] titles of
    that list. *)
Theorem recommendation_prefix :
  forall (sort_values : Series -> Series) (self : ContentBaseRecSys)
         (t : string) (top_k top_k' : Z) (gs actor country : option (list string))
         (titles' : list string),
    NoDup (map id (movies self)) ->
    0 <= top_k <= top_k' ->
    recommendation sort_values self t top_k' gs actor country = Ok titles' ->
    recommendation sort_values self t top_k gs actor country
    = Ok (firstn (Z.to_nat top_k) titles').
Proof.
  intros sort_values self t top_k top_k' gs actor country titles' _ Hk H.
  unfold recommendation in *.
  apply bind_Ok_inv in H. destruct H as [i [Hi H]]. rewrite Hi. simpl bind.
  apply bind_Ok_inv in H. destruct H as [ids [Hids Htitles]].
  unfold get_top_k_movies in *.
  apply bind_Ok_inv in Hids. destruct Hids as [d [Hd Hids]].
  inversion Hids; subst ids; clear Hids.
  rewrite Hd. simpl bind.
  rewrite (slice_top_k_prefix top_k top_k') by exact Hk.
  unfold titles_of in *. apply for_each_firstn. exact Htitles.
Qed.

Lemma recommendation_prefix_witness :
  recommendation stable_sort_values abc "A" 1 None None None
  = Ok (firstn (Z.to_nat 1) ["C"; "B"]).
Proof.
  apply (recommendation_prefix stable_sort_values abc "A" 1 2 None None None).
  - simpl. repeat constructor; simpl; intuition discriminate.
  - lia.
  - reflexivity.
Defined.

Lemma subseq_tail {A : Type} (l1 l2 : list A) :
  subseq l1 l2 -> subseq (tl l1) (tl l2).
Proof.
  intros H. destruct H as [| x l1 l2 H | x l1 l2 H]; simpl.
  - constructor.
  - destruct l1 as [| y l1]; simpl.
    + apply subseq_nil_l.
    + eapply subseq_trans; [| exact H]. apply subseq_skip, subseq_refl.
  - exact H.
Qed.

(** X9.  The identifiers that [get_top_k_movies] returns are labels of the
    sorted row, in the order of that row and without its first entry:
    filters and the slice remove entries, they never add or reorder, and
    the entry ranked first in the row is never returned.  When the labels
    of the row are distinct, no identifier is returned twice, and the
    label ranked first is not among them. *)
Theorem top_k_identifiers_follow_the_ranking :
  forall (sort_values : Series -> Series) (self : ContentBaseRecSys)
         (i top_k : Z) (fm : option (list Z))
         (gs actor country : option (list string)) (ids : list Z),
    (forall l, Permutation l (sort_values l)) ->
    get_top_k_movies sort_values self i top_k fm gs actor country = Ok ids ->
    exists row,
      distance_loc (distance self) i = Ok row
      /\ subseq ids (tl (map fst (sort_values row)))
      /\ (NoDup (map fst row) ->
          NoDup ids
          /\ forall e0 rest, sort_values row = e0 :: rest -> ~ In (fst e0) ids).
Proof.
  intros sort_values self i top_k fm gs actor country ids Hperm H.
  unfold get_top_k_movies in H.
  apply bind_Ok_inv in H. destruct H as [d [Hd H]].
  inversion H; subst ids; clear H.
  destruct (filtered_distances_subseq _ _ _ _ _ _ _ _ Hd) as [row [Hrow Hsub]].
  assert (Hids : subseq (Py.slice 1 (top_k + 1) (map fst d))
                        (tl (map fst (sort_values row)))).
  { eapply subseq_trans; [| apply subseq_tail, subseq_map; exact Hsub].
    destruct (map fst d) as [| x l]; simpl tl.
    - apply subseq_slice.
    - apply slice_from_1_tail. }
  exists row. split; [exact Hrow | split; [exact Hids |]].
  intros Hnd.
  assert (Hnd' : NoDup (map fst (sort_values row))).
  { eapply Permutation_NoDup; [| exact Hnd]. apply Permutation_map, Hperm. }
  split.
  - eapply subseq_NoDup; [exact Hids |].
    destruct (map fst (sort_values row)) as [| x l]; simpl.
    + constructor.
    + inversion Hnd'; assumption.
  - intros e0 rest Hs Hin. rewrite Hs in Hids, Hnd'. simpl in Hids, Hnd'.
    inversion Hnd'; subst. apply (subseq_In _ _ _ Hids) in Hin. contradiction.
Qed.

Lemma top_k_identifiers_follow_the_ranking_witness :
  exists row,
    distance_loc (distance abcd) 1 = Ok row
    /\ subseq [2; 4] (tl (map fst (stable_sort_values row)))
    /\ (NoDup (map fst row) ->
        NoDup [2; 4]
        /\ forall e0 rest, stable_sort_values row = e0 :: rest -> ~ In (fst e0) [2; 4]).
Proof.
  apply (top_k_identifiers_follow_the_ranking stable_sort_values abcd 1 2 None
           (Some ["Action"]) None None [2; 4]).
  - exact stable_sort_values_perm.
  - reflexivity.
Defined.

(** X10.  A filter argument that is [None] and one that is an empty
    collection are the same to [recommendation]: replacing a falsy
    argument by any other falsy one does not change the outcome. *)
Theorem falsy_filters_are_interchangeable :
  forall (sort_values : Series -> Series) (self : ContentBaseRecSys)
         (t : string) (top_k : Z)
         (gs gs' actor actor' country country' : option (list string)),
    (Py.truthy gs = false /\ Py.truthy gs' = false \/ gs = gs') ->
    (Py.truthy actor = false /\ Py.truthy actor' = false \/ actor = actor') ->
    (Py.truthy country = false /\ Py.truthy country' = false \/ country = country') ->
    recommendation sort_values self t top_k gs actor country
    = recommendation sort_values self t top_k gs' actor' country'.
Proof.
  intros sort_values self t top_k gs gs' actor actor' country country' Hg Ha Hc.
  transitivity (recommendation sort_values self t top_k gs' actor country);
    [| transitivity (recommendation sort_values self t top_k gs' actor' country)].
  - destruct Hg as [[H1 H2] | ->]; [| reflexivity].
    unfold recommendation, get_top_k_movies, filtered_distances, narrow,
      select_filtered_movies. rewrite H1, H2. reflexivity.
  - destruct Ha as [[H1 H2] | ->]; [| reflexivity].
    unfold recommendation, get_top_k_movies, filtered_distances, narrow,
      select_filtered_movies. rewrite H1, H2, !andb_false_r. reflexivity.
  - destruct Hc as [[H1 H2] | ->]; [| reflexivity].
    unfold recommendation, get_top_k_movies, filtered_distances, narrow,
      select_filtered_movies. rewrite H1, H2, !andb_false_r. reflexivity.
Qed.

Lemma falsy_filters_are_interchangeable_witness :
  recommendation stable_sort_values abc "A" 2 (Some []) None (Some [])
  = recommendation stable_sort_values abc "A" 2 None (Some []) None.
Proof.
  apply (falsy_filters_are_interchangeable stable_sort_values abc "A" 2);
    left; split; reflexivity.
Defined.

End RankingExtras.

(** ** The [filter_movies_by_*] methods *)

Module FilterExtras.

Import Recsys Candidates Fixtures PyFacts RecsysRanking.

Lemma list_in_iff (x : string) (l : list string) :
  Py.list_in x l = true <-> In x l.
Proof.
  unfold Py.list_in. rewrite existsb_exists. split.
  - intros [y [Hy E]]. apply String.eqb_eq in E. subst. exact Hy.
  - intros H. exists x. split; [exact H | apply String.eqb_refl].
Qed.

Lemma prefix_iff (a b : string) :
  String.prefix a b = true <-> exists post, b = (a ++ post)%string.
Proof.
  revert b. induction a as [| c a IH]; intros b; simpl.
  - destruct b as [| d b]; simpl;
      (split; [intros _; eexists; reflexivity | reflexivity]).
  - destruct b as [| d b]; simpl.
    + split; [discriminate | intros [post H]; discriminate H].
    + destruct (ascii_dec c d) as [-> | Hne].
      * rewrite IH. split; intros [post H]; exists post.
        -- rewrite H. reflexivity.
        -- inversion H. reflexivity.
      * split; [discriminate |]. intros [post H]. inversion H. congruence.
Qed.

(** [sub in s] holds exactly when [s] is some text, then [sub], then some
    text. *)
Lemma str_in_iff (sub s : string) :
  Py.str_in sub s = true <-> exists pre post, s = (pre ++ sub ++ post)%string.
Proof.
  unfold Py.str_in. induction s as [| b s IH].
  - simpl. destruct sub as [| c sub]; split.
    + intros _. exists "", "". reflexivity.
    + reflexivity.
    + discriminate.
    + intros [pre [post H]]. destruct pre; simpl in H; discriminate H.
  - change (String.index 0 sub (String b s))
      with (if String.prefix sub (String b s) then Some 0%nat
            else match String.index 0 sub s with
                 | Some n => Some (S n)
                 | None => None
                 end).
    destruct (String.prefix sub (String b s)) eqn:Ep.
    + split; [| reflexivity]. intros _.
      apply prefix_iff in Ep. destruct Ep as [post H].
      exists "", post. exact H.
    + split.
      * intros H. destruct (String.index 0 sub s); [| discriminate H].
        destruct (proj1 IH eq_refl) as [pre [post E]].
        exists (String b pre), post. rewrite E. reflexivity.
      * intros [pre [post H]]. destruct pre as [| c pre]; simpl in H.
        -- assert (Hp : String.prefix sub (String b s) = true)
             by (apply prefix_iff; exists post; exact H).
           congruence.
        -- inversion H; subst.
           destruct (String.index 0 sub (pre ++ sub ++ post)%string);
             [reflexivity |].
           assert (F : false = true); [| discriminate F].
           apply IH. exists pre, post. reflexivity.
Qed.

Lemma collect_In (test : Movie -> bool) (self : ContentBaseRecSys) (i : Z) :
  In i (collect test self)
  <-> exists m, In m (movies self) /\ id m = i /\ test m = true.
Proof.
  unfold collect. rewrite in_map_iff. split.
  - intros [m [Hid Hm]]. apply filter_In in Hm. exists m. tauto.
  - intros [m [Hm [Hid Ht]]]. exists m. split; [exact Hid |].
    apply filter_In. tauto.
Qed.

(** X11.  What the three single filters select.  An identifier is in the
    result of [filter_movies_by_genre] exactly when its row lists one of
    the requested genres; of [filter_movies_by_actor] exactly when its cast
    has one of the requested names; of [filter_movies_by_country] exactly
    when one of the requested names occurs somewhere inside the serialized
    text of its [production_countries] column, as a substring. *)
Theorem single_filters_select :
  forall (self : ContentBaseRecSys) (requested : list string) (i : Z),
    (In i (filter_movies_by_genre self requested)
     <-> exists m g, In m (movies self) /\ id m = i
                     /\ In g requested /\ In g (genres m))
    /\ (In i (filter_movies_by_actor self requested)
        <-> exists m p, In m (movies self) /\ id m = i
                        /\ In p requested /\ In p (cast m))
    /\ (In i (filter_movies_by_country self requested)
        <-> exists m c pre post,
              In m (movies self) /\ id m = i /\ In c requested
              /\ production_countries m = (pre ++ c ++ post)%string).
Proof.
  intros self requested i.
  unfold filter_movies_by_genre, filter_movies_by_actor, filter_movies_by_country.
  rewrite !collect_In. repeat split.
  - intros [m [Hm [Hid Ht]]]. unfold genre_test in Ht.
    apply existsb_exists in Ht. destruct Ht as [g [Hg Hin]].
    apply list_in_iff in Hin. exists m, g. auto.
  - intros [m [g [Hm [Hid [Hg Hin]]]]]. exists m. repeat split; try assumption.
    unfold genre_test. apply existsb_exists. exists g. split; [exact Hg |].
    apply list_in_iff. exact Hin.
  - intros [m [Hm [Hid Ht]]]. unfold actor_test in Ht.
    apply existsb_exists in Ht. destruct Ht as [p [Hp Hin]].
    apply list_in_iff in Hin. exists m, p. auto.
  - intros [m [p [Hm [Hid [Hp Hin]]]]]. exists m. repeat split; try assumption.
    unfold actor_test. apply existsb_exists. exists p. split; [exact Hin |].
    apply list_in_iff. exact Hp.
  - intros [m [Hm [Hid Ht]]]. unfold country_test in Ht.
    apply existsb_exists in Ht. destruct Ht as [c [Hc Hin]].
    apply str_in_iff in Hin. destruct Hin as [pre [post E]].
    exists m, c, pre, post. auto.
  - intros [m [c [pre [post [Hm [Hid [Hc E]]]]]]]. exists m.
    repeat split; try assumption.
    unfold country_test. apply existsb_exists. exists c. split; [exact Hc |].
    apply str_in_iff. exists pre, post. exact E.
Qed.

Lemma single_filters_select_witness :
  In 2 (filter_movies_by_genre troupe ["Action"])
  /\ In 2 (filter_movies_by_actor troupe ["Mia"])
  /\ In 3 (filter_movies_by_country troupe ["Niger"]).
Proof.
  split; [| split].
  - apply (proj1 (single_filters_select troupe ["Action"] 2)).
    exists (film 2 "B" ["Action"; "Comedy"] ["Adam"; "Mia"] None), "Action".
    simpl. auto 6.
  - apply (proj1 (proj2 (single_filters_select troupe ["Mia"] 2))).
    exists (film 2 "B" ["Action"; "Comedy"] ["Adam"; "Mia"] None), "Mia".
    simpl. auto 6.
  - apply (proj2 (proj2 (single_filters_select troupe ["Niger"] 3))).
    exists (film 3 "C" ["Drama"] [] (Some "")), "Niger",
      "[{'iso_3166_1': 'NG', 'name': '", "ia'}]".
    simpl. auto 6.
Defined.

(** X12.  The two combined filters are unions: an identifier is selected
    by [filter_movies_by_genre_and_country] exactly when
    [filter_movies_by_genre] or [filter_movies_by_country] selects it, and
    by [filter_movies_by_genre_and_actor] exactly when
    [filter_movies_by_genre] or [filter_movies_by_actor] does. *)
Theorem combined_filters_are_unions :
  forall (self : ContentBaseRecSys) (gs other : list string) (i : Z),
    (In i (filter_movies_by_genre_and_country self gs other)
     <-> In i (filter_movies_by_genre self gs)
         \/ In i (filter_movies_by_country self other))
    /\ (In i (filter_movies_by_genre_and_actor self gs other)
        <-> In i (filter_movies_by_genre self gs)
            \/ In i (filter_movies_by_actor self other)).
Proof.
  intros self gs other i.
  unfold filter_movies_by_genre_and_country, filter_movies_by_genre_and_actor,
    filter_movies_by_genre, filter_movies_by_country, filter_movies_by_actor.
  rewrite !collect_In. split; split.
  - intros [m [Hm [Hid Ht]]]. apply orb_prop in Ht.
    destruct Ht as [Ht | Ht]; [left | right]; exists m; auto.
  - intros [[m [Hm [Hid Ht]]] | [m [Hm [Hid Ht]]]]; exists m;
      rewrite Ht, ?orb_true_r; auto.
  - intros [m [Hm [Hid Ht]]]. apply orb_prop in Ht.
    destruct Ht as [Ht | Ht]; [left | right]; exists m; auto.
  - intros [[m [Hm [Hid Ht]]] | [m [Hm [Hid Ht]]]]; exists m;
      rewrite Ht, ?orb_true_r; auto.
Qed.

Lemma combined_filters_are_unions_witness :
  In 3 (filter_movies_by_genre_and_country troupe ["Action"] ["Niger"])
  /\ In 1 (filter_movies_by_genre_and_actor troupe ["Action"] ["Zoe"]).
Proof.
  split.
  - apply (proj1 (combined_filters_are_unions troupe ["Action"] ["Niger"] 3)).
    right. simpl. auto.
  - apply (proj2 (combined_filters_are_unions troupe ["Action"] ["Zoe"] 1)).
    right. simpl. auto.
Defined.

(** X13.  Every filter returns identifiers of the catalog in load order,
    each at most as often as the catalog has it: the result is a
    subsequence of the identifier column. *)
Theorem filters_keep_load_order :
  forall (self : ContentBaseRecSys) (gs actor country : list string),
    let ids := map id (movies self) in
    subseq (filter_movies_by_genre self gs) ids
    /\ subseq (filter_movies_by_actor self actor) ids
    /\ subseq (filter_movies_by_country self country) ids
    /\ subseq (filter_movies_by_genre_and_actor self gs actor) ids
    /\ subseq (filter_movies_by_genre_and_country self gs country) ids.
Proof.
  intros self gs actor country ids.
  unfold filter_movies_by_genre, filter_movies_by_actor, filter_movies_by_country,
    filter_movies_by_genre_and_actor, filter_movies_by_genre_and_country, collect.
  repeat split; apply subseq_map, subseq_filter.
Qed.

End FilterExtras.

(** ** The accessors and the titles they are given *)

Module AccessorExtras.

Import Recsys Catalog Scenario Fixtures RecsysLookup RecsysRanking.

(** A title of the catalog splits the catalog at its first occurrence. *)
Lemma first_occurrence (rows : list Movie) (t : string) :
  In t (map title rows) ->
  exists before m after,
    rows = before ++ m :: after
    /\ title m = t
    /\ (forall x, In x before -> title x <> t).
Proof.
  induction rows as [| r rows IH]; simpl; intros H.
  - contradiction.
  - destruct (string_dec (title r) t) as [E | Hne].
    + exists [], r, rows. repeat split; [exact E | intros x []].
    + destruct H as [E | H]; [contradiction |].
      destruct (IH H) as [before [m [after [Hs [Hm Hb]]]]].
      exists (r :: before), m, after. rewrite Hs. repeat split; [exact Hm |].
      intros x [<- | Hx]; [exact Hne | apply Hb; exact Hx].
Qed.

(** X14.  [get_movie_url] has no handler: for a title that no row has it
    raises [IndexError].  Otherwise it looks at the first row with that
    title and returns its homepage, or the empty string when that homepage
    is null or empty. *)
Theorem get_movie_url_cases :
  forall (self : ContentBaseRecSys) (t : string),
    ((forall m, In m (movies self) -> title m <> t) ->
     get_movie_url self t = Raise IndexError)
    /\ (forall before m after,
          movies self = before ++ m :: after ->
          title m = t ->
          (forall x, In x before -> title x <> t) ->
          (homepage m = None \/ homepage m = Some "" ->
           get_movie_url self t = Ok "")
          /\ (forall site, homepage m = Some site -> site <> "" ->
                           get_movie_url self t = Ok site)).
Proof.
  intros self t. split.
  - intros Hnone. unfold get_movie_url.
    rewrite (rows_with_title_none _ _ Hnone). reflexivity.
  - intros before m after Hsplit Hm Hb. unfold get_movie_url.
    rewrite Hsplit, (rows_with_title_first _ _ _ _ Hm Hb). simpl. split.
    + intros [E | E]; rewrite E; reflexivity.
    + intros site E Hne. rewrite E. simpl.
      destruct site; [contradiction | reflexivity].
Qed.

Lemma get_movie_url_cases_witness :
  get_movie_url troupe "Z" = Raise IndexError
  /\ get_movie_url troupe "B" = Ok ""
  /\ get_movie_url troupe "A" = Ok "https://a.example".
Proof.
  split; [| split].
  - apply (proj1 (get_movie_url_cases troupe "Z")).
    intros m [<- | [<- | [<- | []]]]; discriminate.
  - destruct (proj2 (get_movie_url_cases troupe "B")
                [film 1 "A" ["Comedy"] ["Zoe"; " Adam "] (Some "https://a.example")]
                (film 2 "B" ["Action"; "Comedy"] ["Adam"; "Mia"] None)
                [film 3 "C" ["Drama"] [] (Some "")] eq_refl eq_refl) as [H _].
    + intros x [<- | []]; discriminate.
    + apply H. left. reflexivity.
  - destruct (proj2 (get_movie_url_cases troupe "A") []
                (film 1 "A" ["Comedy"] ["Zoe"; " Adam "] (Some "https://a.example"))
                [film 2 "B" ["Action"; "Comedy"] ["Adam"; "Mia"] None;
                 film 3 "C" ["Drama"] [] (Some "")] eq_refl eq_refl) as [_ H].
    + intros x [].
    + apply H; [reflexivity | discriminate].
Defined.

(** X15.  [get_original_title] never raises: it returns the empty string
    for a title that no row has, and otherwise the original title of the
    first row with that title. *)
Theorem get_original_title_cases :
  forall (self : ContentBaseRecSys) (t : string),
    ((forall m, In m (movies self) -> title m <> t) ->
     get_original_title self t = Ok "")
    /\ (forall before m after,
          movies self = before ++ m :: after ->
          title m = t ->
          (forall x, In x before -> title x <> t) ->
          get_original_title self t = Ok (original_title m)).
Proof.
  intros self t. split.
  - intros Hnone. unfold get_original_title.
    rewrite (rows_with_title_none _ _ Hnone). reflexivity.
  - intros before m after Hsplit Hm Hb. unfold get_original_title.
    rewrite Hsplit, (rows_with_title_first _ _ _ _ Hm Hb). reflexivity.
Qed.

Lemma get_original_title_cases_witness :
  get_original_title troupe "Z" = Ok ""
  /\ get_original_title troupe "B" = Ok "B (original)".
Proof.
  split.
  - apply (proj1 (get_original_title_cases troupe "Z")).
    intros m [<- | [<- | [<- | []]]]; discriminate.
  - apply (proj2 (get_original_title_cases troupe "B")
             [film 1 "A" ["Comedy"] ["Zoe"; " Adam "] (Some "https://a.example")]
             (film 2 "B" ["Action"; "Comedy"] ["Adam"; "Mia"] None)
             [film 3 "C" ["Drama"] [] (Some "")]);
      [reflexivity | reflexivity | intros x [<- | []]; discriminate].
Defined.

(** X16.  The titles that [get_title] offers are exactly the titles that
    resolve: [movie_index_of] returns an identifier for a title if and only
    if the title is in that list, and the identifier is that of a row with
    this title. *)
Theorem offered_titles_resolve :
  forall (self : ContentBaseRecSys) (t : string),
    (In t (get_title self) <-> exists i, movie_index_of self t = Ok i)
    /\ (forall i, movie_index_of self t = Ok i ->
                  exists m, In m (movies self) /\ id m = i /\ title m = t).
Proof.
  intros self t. unfold get_title, movie_index_of. split; [split |].
  - intros H. destruct (first_occurrence _ _ H) as [before [m [after [Hs [Hm Hb]]]]].
    exists (id m). rewrite Hs, (rows_with_title_first _ _ _ _ Hm Hb). reflexivity.
  - intros [i H].
    destruct (rows_with_title (movies self) t) as [| m rest] eqn:E;
      [discriminate H |].
    assert (Hin : In m (rows_with_title (movies self) t)) by (rewrite E; left; reflexivity).
    unfold rows_with_title in Hin. apply filter_In in Hin. destruct Hin as [Hin Ht].
    apply String.eqb_eq in Ht. rewrite <- Ht. apply in_map. exact Hin.
  - intros i H.
    destruct (rows_with_title (movies self) t) as [| m rest] eqn:E;
      [discriminate H |].
    assert (Hin : In m (rows_with_title (movies self) t)) by (rewrite E; left; reflexivity).
    unfold rows_with_title in Hin. apply filter_In in Hin. destruct Hin as [Hin Ht].
    apply String.eqb_eq in Ht. simpl in H. inversion H. exists m. auto.
Qed.

Lemma offered_titles_resolve_witness :
  (exists i, movie_index_of twins "Twins" = Ok i)
  /\ In "Solo" (get_title twins)
  /\ exists m, In m (movies twins) /\ id m = 2 /\ title m = "Twins".
Proof.
  split; [| split].
  - apply (proj1 (proj1 (offered_titles_resolve twins "Twins"))).
    simpl. auto.
  - apply (proj2 (proj1 (offered_titles_resolve twins "Solo"))).
    exists 1. reflexivity.
  - apply (proj2 (offered_titles_resolve twins "Twins") 2). reflexivity.
Defined.

(** X17.  Every title that [recommendation] returns can be handed to the
    accessors, as the page does: it is one of the titles of [get_title], it
    resolves, [get_movie_url] does not raise on it, and [get_overview] and
    [get_original_title] answer from a row that carries this title, not
    from their handler for unknown titles. *)
Theorem recommended_titles_have_rows :
  forall (sort_values : Series -> Series) (self : ContentBaseRecSys)
         (t : string) (top_k : Z) (gs actor country : option (list string))
         (titles : list string),
    recommendation sort_values self t top_k gs actor country = Ok titles ->
    Forall
      (fun ttl =>
         In ttl (get_title self)
         /\ (exists i, movie_index_of self ttl = Ok i)
         /\ (exists site, get_movie_url self ttl = Ok site)
         /\ exists m,
              In m (movies self) /\ title m = ttl
              /\ get_overview self ttl = Ok (overview m)
              /\ get_original_title self ttl = Ok (original_title m))
      titles.
Proof.
  intros sort_values self t top_k gs actor country titles H.
  unfold recommendation in H.
  apply bind_Ok_inv in H. destruct H as [i [_ H]].
  apply bind_Ok_inv in H. destruct H as [ids [_ Htitles]].
  unfold titles_of in Htitles. apply for_each_Forall2 in Htitles.
  induction Htitles as [| j ttl ids titles Hj _ IH]; constructor; [| exact IH].
  simpl in Hj. apply bind_Ok_inv in Hj. destruct Hj as [m0 [Hm0 Hj]].
  inversion Hj; subst ttl. apply loc_Ok in Hm0. destruct Hm0 as [Hin _].
  assert (Ht : In (title m0) (get_title self)) by (apply in_map; exact Hin).
  destruct (first_occurrence _ _ Ht) as [before [m [after [Hs [Hm Hb]]]]].
  split; [exact Ht |]. split; [| split].
  - exists (id m). unfold movie_index_of.
    rewrite Hs, (rows_with_title_first _ _ _ _ Hm Hb). reflexivity.
  - unfold get_movie_url.
    rewrite Hs, (rows_with_title_first _ _ _ _ Hm Hb). simpl. eexists. reflexivity.
  - exists m. repeat split.
    + rewrite Hs. apply in_or_app. right. left. reflexivity.
    + exact Hm.
    + unfold get_overview.
      rewrite Hs, (rows_with_title_first _ _ _ _ Hm Hb). simpl.
      destruct (overview m); reflexivity.
    + unfold get_original_title.
      rewrite Hs, (rows_with_title_first _ _ _ _ Hm Hb). reflexivity.
Qed.

Lemma recommended_titles_have_rows_witness :
  Forall
    (fun ttl =>
       In ttl (get_title abc)
       /\ (exists i, movie_index_of abc ttl = Ok i)
       /\ (exists site, get_movie_url abc ttl = Ok site)
       /\ exists m,
            In m (movies abc) /\ title m = ttl
            /\ get_overview abc ttl = Ok (overview m)
            /\ get_original_title abc ttl = Ok (original_title m))
    ["C"; "B"].
Proof.
  apply (recommended_titles_have_rows stable_sort_values abc "A" 2 None None None).
  reflexivity.
Defined.

End AccessorExtras.

(** ** The enumerations offered for selection *)

Module CatalogExtras.

Import Recsys Candidates Catalog Scenario Fixtures PyFacts RecsysRanking
       FilterExtras.

(** *** The order of strings *)

Definition slt (a b : string) : Prop := String.ltb a b = true.
Definition sle (a b : string) : Prop := String.leb a b = true.

Lemma slt_iff (a b : string) : slt a b <-> OrderedTypeEx.String_as_OT.lt a b.
Proof.
  unfold slt, String.ltb. rewrite <- OrderedTypeEx.String_as_OT.cmp_lt. unfold OrderedTypeEx.String_as_OT.cmp.
  destruct (String.compare a b); split; congruence.
Qed.

Lemma sle_iff (a b : string) : sle a b <-> a = b \/ slt a b.
Proof.
  unfold sle, slt, String.leb, String.ltb.
  destruct (String.compare a b) eqn:E; split; intros H; try reflexivity.
  - left. apply String.compare_eq_iff. exact E.
  - right. reflexivity.
  - discriminate H.
  - destruct H as [-> | H]; [| discriminate H].
    assert (E' : OrderedTypeEx.String_as_OT.cmp b b = Eq) by (apply OrderedTypeEx.String_as_OT.cmp_eq; reflexivity).
    unfold OrderedTypeEx.String_as_OT.cmp in E'. congruence.
Qed.

Lemma slt_trans (a b c : string) : slt a b -> slt b c -> slt a c.
Proof.
  rewrite !slt_iff. apply OrderedTypeEx.String_as_OT.lt_trans.
Qed.

Lemma slt_irrefl (a : string) : ~ slt a a.
Proof.
  rewrite slt_iff. intros H. apply (OrderedTypeEx.String_as_OT.lt_not_eq _ _ H). reflexivity.
Qed.

Lemma sle_trans (a b c : string) : sle a b -> sle b c -> sle a c.
Proof.
  rewrite !sle_iff. intros [-> | H1] [-> | H2]; auto.
  right. eapply slt_trans; eassumption.
Qed.

(** *** [sorted] *)

Lemma insert_sorted_perm (x : string) (l : list string) :
  Permutation (x :: l) (insert_sorted x l).
Proof.
  induction l as [| y r IH]; simpl.
  - apply Permutation_refl.
  - destruct (String.leb x y).
    + apply Permutation_refl.
    + eapply perm_trans; [apply perm_swap |]. apply perm_skip. exact IH.
Qed.

Lemma sorted_perm (l : list string) : Permutation l (sorted l).
Proof.
  induction l as [| x r IH]; simpl.
  - apply perm_nil.
  - eapply perm_trans; [apply perm_skip; exact IH | apply insert_sorted_perm].
Qed.

Lemma insert_sorted_ordered (x : string) (l : list string) :
  StronglySorted sle l -> StronglySorted sle (insert_sorted x l).
Proof.
  induction l as [| y r IH]; simpl; intros Hs.
  - constructor; constructor.
  - inversion Hs as [| ? ? Hr Hall]; subst.
    destruct (String.leb x y) eqn:E.
    + constructor; [exact Hs |]. constructor; [exact E |].
      rewrite Forall_forall in *. intros z Hz.
      eapply sle_trans; [exact E | apply Hall; exact Hz].
    + assert (Hyx : sle y x).
      { destruct (String.leb_total x y) as [H | H]; [congruence | exact H]. }
      constructor; [apply IH; exact Hr |].
      eapply Permutation_Forall; [apply insert_sorted_perm |].
      constructor; assumption.
Qed.

Lemma sorted_ordered (l : list string) : StronglySorted sle (sorted l).
Proof.
  induction l as [| x r IH]; simpl.
  - constructor.
  - apply insert_sorted_ordered. exact IH.
Qed.

Lemma ordered_distinct_is_strict (l : list string) :
  StronglySorted sle l -> NoDup l -> StronglySorted slt l.
Proof.
  induction 1 as [| x l Hs IH Hall]; intros Hnd.
  - constructor.
  - inversion Hnd; subst. constructor; [auto |].
    rewrite Forall_forall in *. intros z Hz.
    destruct (proj1 (sle_iff x z) (Hall z Hz)) as [-> | H]; [contradiction | exact H].
Qed.

(** Two strictly increasing lists with the same members are equal. *)
Lemma strictly_sorted_unique (l1 l2 : list string) :
  StronglySorted slt l1 -> StronglySorted slt l2 ->
  (forall a, In a l1 <-> In a l2) -> l1 = l2.
Proof.
  revert l2. induction l1 as [| x r1 IH]; intros l2 H1 H2 Hmem.
  - destruct l2 as [| y r2]; [reflexivity |].
    exfalso. apply (proj2 (Hmem y)). left. reflexivity.
  - destruct l2 as [| y r2].
    + exfalso. apply (proj1 (Hmem x)). left. reflexivity.
    + inversion H1 as [| ? ? Hs1 Ha1]; subst.
      inversion H2 as [| ? ? Hs2 Ha2]; subst.
      rewrite Forall_forall in Ha1, Ha2.
      assert (E : x = y).
      { destruct (proj1 (Hmem x) (or_introl eq_refl)) as [E | Hx]; [auto |].
        destruct (proj2 (Hmem y) (or_introl eq_refl)) as [E | Hy]; [auto |].
        exfalso. apply (slt_irrefl x).
        eapply slt_trans; [apply Ha1; exact Hy | apply Ha2; exact Hx]. }
      subst y. f_equal. apply IH; try assumption.
      intros a. split; intros Ha.
      * destruct (proj1 (Hmem a) (or_intror Ha)) as [E | H]; [| exact H].
        subst a. exfalso. apply (slt_irrefl x). apply Ha1. exact Ha.
      * destruct (proj2 (Hmem a) (or_intror Ha)) as [E | H]; [| exact H].
        subst a. exfalso. apply (slt_irrefl x). apply Ha2. exact Ha.
Qed.

(** X18.  [get_all_actors] returns the stripped cast names in strictly
    increasing order: every name of every cast is there once, stripped, and
    nothing else; and it is the only strictly increasing list with these
    members, so the order in which the set was filled does not show. *)
Theorem get_all_actors_is_the_sorted_set :
  forall (strip : string -> string) (self : ContentBaseRecSys),
    StronglySorted (fun a b => String.ltb a b = true) (get_all_actors strip self)
    /\ (forall a,
          In a (get_all_actors strip self)
          <-> exists m p, In m (movies self) /\ In p (cast m) /\ a = strip p)
    /\ (forall l,
          StronglySorted (fun a b => String.ltb a b = true) l ->
          (forall a, In a l <-> In a (get_all_actors strip self)) ->
          l = get_all_actors strip self).
Proof.
  intros strip self.
  assert (Hs : StronglySorted slt (get_all_actors strip self)).
  { unfold get_all_actors. apply ordered_distinct_is_strict.
    - apply sorted_ordered.
    - eapply Permutation_NoDup; [apply sorted_perm |].
      unfold set_of. apply NoDup_nodup. }
  split; [exact Hs | split].
  - intros a. unfold get_all_actors, set_of. split.
    + intros H. apply (Permutation_in _ (Permutation_sym (sorted_perm _))) in H.
      apply nodup_In in H. apply in_map_iff in H. destruct H as [p [<- Hp]].
      apply in_concat in Hp. destruct Hp as [c [Hc Hp]].
      apply in_map_iff in Hc. destruct Hc as [m [<- Hm]].
      exists m, p. auto.
    + intros [m [p [Hm [Hp ->]]]].
      apply (Permutation_in _ (sorted_perm _)). apply nodup_In.
      apply in_map. apply in_concat. exists (cast m). split; [| exact Hp].
      apply in_map. exact Hm.
  - intros l Hl Hmem. apply strictly_sorted_unique; assumption.
Qed.

Lemma get_all_actors_is_the_sorted_set_witness :
  In "Adam" (get_all_actors ascii_strip troupe)
  /\ ["Adam"; "Mia"; "Zoe"] = get_all_actors ascii_strip troupe.
Proof.
  destruct (get_all_actors_is_the_sorted_set ascii_strip troupe) as [_ [Hm Hu]].
  split.
  - apply Hm.
    exists (film 1 "A" ["Comedy"] ["Zoe"; " Adam "] (Some "https://a.example")),
      " Adam ".
    simpl. auto.
  - apply Hu.
    + repeat constructor.
    + intros a. change (get_all_actors ascii_strip troupe) with ["Adam"; "Mia"; "Zoe"].
      tauto.
Defined.

(** X19.  [get_genres] lists every genre of the catalog once, and each
    genre it offers selects something: a name is in [get_genres] exactly
    when some row lists it, which is exactly when [filter_movies_by_genre]
    for that single name returns at least one identifier. *)
Theorem offered_genres_select_a_movie :
  forall (self : ContentBaseRecSys) (g : string),
    NoDup (get_genres self)
    /\ (In g (get_genres self)
        <-> exists m, In m (movies self) /\ In g (genres m))
    /\ (In g (get_genres self) <-> filter_movies_by_genre self [g] <> []).
Proof.
  intros self g.
  assert (Hmem : In g (get_genres self)
                 <-> exists m, In m (movies self) /\ In g (genres m)).
  { unfold get_genres, set_of. rewrite nodup_In, in_concat. split.
    - intros [c [Hc Hg]]. apply in_map_iff in Hc. destruct Hc as [m [<- Hm]].
      exists m. auto.
    - intros [m [Hm Hg]]. exists (genres m). split; [apply in_map |]; assumption. }
  split; [unfold get_genres, set_of; apply NoDup_nodup | split; [exact Hmem |]].
  assert (Htest : forall m, genre_test [g] m = true <-> In g (genres m)).
  { intros m. unfold genre_test. simpl. rewrite orb_false_r. apply list_in_iff. }
  rewrite Hmem. unfold filter_movies_by_genre. split.
  - intros [m [Hm Hg]] E.
    assert (Hin : In (id m) (collect (genre_test [g]) self)).
    { apply collect_In. exists m. repeat split; [exact Hm | apply Htest; exact Hg]. }
    rewrite E in Hin. contradiction.
  - intros Hne. destruct (collect (genre_test [g]) self) as [| i rest] eqn:E;
      [contradiction |].
    assert (Hin : In i (collect (genre_test [g]) self)) by (rewrite E; left; reflexivity).
    apply collect_In in Hin. destruct Hin as [m [Hm [_ Ht]]].
    exists m. split; [exact Hm | apply Htest; exact Ht].
Qed.

Lemma offered_genres_select_a_movie_witness :
  In "Drama" (get_genres troupe)
  /\ filter_movies_by_genre troupe ["Comedy"] <> [].
Proof.
  destruct (offered_genres_select_a_movie troupe "Drama") as [_ [H1 _]].
  destruct (offered_genres_select_a_movie troupe "Comedy") as [_ [H2 H3]].
  split.
  - apply H1. exists (film 3 "C" ["Drama"] [] (Some "")). simpl. auto.
  - apply H3. apply H2.
    exists (film 1 "A" ["Comedy"] ["Zoe"; " Adam "] (Some "https://a.example")).
    simpl. auto.
Defined.

(** Under an actor filter every returned title comes from a row whose
    cast has one of the requested names. *)
Lemma returned_titles_meet_actor_filter :
  forall (sort_values : Series -> Series) (self : ContentBaseRecSys)
         (t : string) (top_k : Z) (gs actor country : option (list string))
         (titles : list string),
    Py.truthy actor = true ->
    recommendation sort_values self t top_k gs actor country = Ok titles ->
    Forall
      (fun ttl => exists m, In m (movies self) /\ title m = ttl
                            /\ actor_test (Py.elems actor) m = true)
      titles.
Proof.
  intros sort_values self t top_k gs actor country titles Ht H.
  unfold recommendation in H.
  apply bind_Ok_inv in H. destruct H as [i [_ H]].
  apply bind_Ok_inv in H. destruct H as [ids [Hids Htitles]].
  unfold get_top_k_movies in Hids.
  apply bind_Ok_inv in Hids. destruct Hids as [d [Hd Hids]].
  inversion Hids; subst ids; clear Hids.
  unfold filtered_distances in Hd.
  apply bind_Ok_inv in Hd. destruct Hd as [row [_ Hd]].
  apply bind_Ok_inv in Hd. destruct Hd as [d1 [_ Hd]].
  apply bind_Ok_inv in Hd. destruct Hd as [d2 [H2 H3]].
  pose proof (narrow_subseq _ _ _ _ _ H3) as S3.
  rewrite slice_map in Htitles.
  unfold titles_of in Htitles. apply for_each_Forall2 in Htitles.
  apply Forall2_map_left in Htitles.
  assert (Hin : forall e, In e (Py.slice 1 (top_k + 1) d) -> In e d2).
  { intros e He. apply (subseq_In _ _ _ S3).
    eapply subseq_In; [apply subseq_slice | exact He]. }
  revert Htitles Hin. generalize (Py.slice 1 (top_k + 1) d). intros es Hf.
  induction Hf as [| e ttl es ts Het _ IH]; intros Hin; constructor.
  - simpl in Het. apply bind_Ok_inv in Het. destruct Het as [m [Hm Het]].
    inversion Het; subst ttl.
    destruct (RankingExtras.narrow_sound self _ _ _ _ e H2 Ht) as [m' [Hm' Htest]].
    + apply Hin. left. reflexivity.
    + exists m. repeat split; [| congruence].
      apply loc_Ok in Hm. tauto.
  - apply IH. intros e' He'. apply Hin. right. exact He'.
Qed.

(** X20.  An actor filter that names one name which no cast contains
    verbatim leaves nothing to return: whenever [recommendation] returns
    under it, it returns the empty list.  This is the case of the empty
    string that [app.get_all_actors] puts in front of its list, and of a
    stripped name of that list whose cast entry carries white space. *)
Theorem unlisted_actor_name_returns_nothing :
  forall (sort_values : Series -> Series) (self : ContentBaseRecSys)
         (t : string) (top_k : Z) (gs country : option (list string))
         (name : string) (titles : list string),
    (forall m, In m (movies self) -> ~ In name (cast m)) ->
    recommendation sort_values self t top_k gs (Some [name]) country = Ok titles ->
    titles = [].
Proof.
  intros sort_values self t top_k gs country name titles Hcast H.
  apply returned_titles_meet_actor_filter in H; [| reflexivity].
  destruct titles as [| ttl rest]; [reflexivity |].
  exfalso. inversion H as [| ? ? [m [Hm [_ Htest]]] _]; subst.
  unfold actor_test in Htest. apply existsb_exists in Htest.
  destruct Htest as [p [Hp Hin]]. apply list_in_iff in Hin.
  destruct Hin as [<- | []]. exact (Hcast m Hm Hp).
Qed.

Lemma unlisted_actor_name_returns_nothing_witness :
  In "" (App.get_all_actors ascii_strip company)
  /\ In "Mia" (App.get_all_actors ascii_strip company)
  /\ (exists titles,
        recommendation stable_sort_values company "A" 5 None (Some [""]) None
        = Ok titles /\ titles = [])
  /\ (exists titles,
        recommendation stable_sort_values company "A" 5 None (Some ["Mia"]) None
        = Ok titles /\ titles = [])
  /\ recommendation stable_sort_values company "A" 5 None (Some ["Zoe"]) None
     = Ok ["B"].
Proof.
  split; [simpl; auto |]. split; [simpl; auto |]. split; [| split].
  - exists []. split; [reflexivity |].
    apply (unlisted_actor_name_returns_nothing stable_sort_values company "A" 5
             None None "" []).
    + intros m [<- | [<- | [<- | []]]]; simpl; intuition discriminate.
    + reflexivity.
  - exists []. split; [reflexivity |].
    apply (unlisted_actor_name_returns_nothing stable_sort_values company "A" 5
             None None "Mia" []).
    + intros m [<- | [<- | [<- | []]]]; simpl; intuition discriminate.
    + reflexivity.
  - reflexivity.
Defined.

End CatalogExtras.

(** ** [parse] *)

Module ParseExtras.

Import Utils Scenario UtilsParse.

Lemma try_except_not_caught {A : Type} (c : result A)
    (caught : exception -> bool) (handler : A) (e : exception) :
  try_except c caught handler = Raise e -> caught e = false.
Proof.
  destruct c as [a | e0]; simpl; [discriminate |].
  destruct (caught e0) eqn:E; [discriminate |].
  intros H. inversion H; subst. exact E.
Qed.

(** X21.  Whatever [ast.literal_eval] does and whatever it is given,
    [parse] never raises [ValueError] or [SyntaxError]: these two are
    turned into the empty list. *)
Theorem parse_never_raises_what_it_catches :
  forall (literal_eval : string -> result pyvalue) (parsed_column : column_value),
    parse literal_eval parsed_column <> Raise ValueError
    /\ parse literal_eval parsed_column <> Raise SyntaxError.
Proof.
  intros literal_eval parsed_column.
  assert (H : forall e, parse literal_eval parsed_column = Raise e ->
                        is_ValueError_or_SyntaxError e = false).
  { intros e. unfold parse. destruct parsed_column.
    - discriminate.
    - apply try_except_not_caught.
    - apply try_except_not_caught. }
  split; intros E; apply H in E; discriminate E.
Qed.

Lemma names_of_records (records : list (list (pyvalue * pyvalue)))
    (names : list pyvalue) :
  Forall2 (fun entries name => dict_get entries "name" = Some name) records names ->
  for_each getitem_name (map PyDict records) = Ok names.
Proof.
  induction 1 as [| entries name records names Hd _ IH].
  - reflexivity.
  - simpl. rewrite Hd. simpl. simpl in IH. rewrite IH. reflexivity.
Qed.

(** X22.  When the text evaluates to a list of records that all have the
    key ['name'], [parse] returns the values under that key, one per
    record and in the order of the records, whatever else the records
    hold. *)
Theorem parse_returns_the_names_in_order :
  forall (literal_eval : string -> result pyvalue) (s : string)
         (records : list (list (pyvalue * pyvalue))) (names : list pyvalue),
    literal_eval s = Ok (PyList (map PyDict records)) ->
    Forall2 (fun entries name => dict_get entries "name" = Some name) records names ->
    parse literal_eval (CText s) = Ok names.
Proof.
  intros literal_eval s records names Hs Hn.
  unfold parse, literal_eval_object. rewrite Hs. simpl bind.
  rewrite (names_of_records _ _ Hn). reflexivity.
Qed.

Lemma parse_returns_the_names_in_order_witness :
  parse read_literal (CText "[{'id': 18, 'name': 'Drama'}, {'name': 'War', 'id': 7}]")
  = Ok [PyStr "Drama"; PyStr "War"].
Proof.
  apply (parse_returns_the_names_in_order read_literal _
           [ [(PyStr "id", PyInt 18); (PyStr "name", PyStr "Drama")];
             [(PyStr "name", PyStr "War"); (PyStr "id", PyInt 7)] ]).
  - reflexivity.
  - repeat constructor.
Defined.

End ParseExtras.

(** ** The poster batch, once more *)

Module PosterExtras.

Import Omdb Scenario.

(** X23.  When [get_posters] returns, it returns one URL for each title
    and none of them is the empty string: an empty or missing poster has
    been replaced by the placeholder. *)
Theorem posters_are_never_empty :
  forall (requests_get : string -> list (string * string) -> result Response)
         (self : OMDBApi) (titles posters : list string),
    get_posters requests_get self titles = Ok posters ->
    List.length posters = List.length titles
    /\ Forall (fun p => p <> "") posters.
Proof.
  intros requests_get self titles posters H. split.
  - unfold get_posters in H. apply for_each_length in H. exact H.
  - unfold get_posters in H. apply for_each_Forall2 in H.
    induction H as [| t p titles posters Hp _ IH]; constructor; [| exact IH].
    simpl in Hp. apply bind_Ok_inv in Hp. destruct Hp as [path [_ Hp]].
    inversion Hp; subst p.
    destruct path as [[| c s] |]; simpl; discriminate.
Qed.

Lemma posters_are_never_empty_witness :
  List.length [ "https://img/inception.jpg"; placeholder; placeholder ]
  = List.length ["Inception"; "Nowhere"; "Denied"]
  /\ Forall (fun p => p <> "")
       [ "https://img/inception.jpg"; placeholder; placeholder ].
Proof.
  apply (posters_are_never_empty transport api). reflexivity.
Defined.

(** X24.  The batch stops at the first lookup that raises, with that
    exception: if the lookups of the titles before [t] return and the
    lookup of [t] raises [e], [get_posters] raises [e], whatever follows
    [t] in the list. *)
Theorem first_failing_lookup_decides :
  forall (requests_get : string -> list (string * string) -> result Response)
         (self : OMDBApi) (before after : list string) (t : string)
         (e : exception),
    (forall b, In b before ->
               exists path, _get_image_path requests_get self b = Ok path) ->
    _get_image_path requests_get self t = Raise e ->
    get_posters requests_get self (before ++ t :: after) = Raise e.
Proof.
  intros requests_get self before after t e Hb Ht. unfold get_posters.
  induction before as [| b before IH]; simpl.
  - rewrite Ht. reflexivity.
  - destruct (Hb b (or_introl eq_refl)) as [path Hp]. rewrite Hp. simpl bind.
    simpl in IH. rewrite IH; [reflexivity |].
    intros b' Hb'. apply Hb. right. exact Hb'.
Qed.

Lemma first_failing_lookup_decides_witness :
  get_posters transport api (["Inception"; "Denied"] ++ "Lost" :: ["Nowhere"])
  = Raise RequestException.
Proof.
  apply (first_failing_lookup_decides transport api).
  - intros b [<- | [<- | []]]; eexists; reflexivity.
  - reflexivity.
Defined.

End PosterExtras.

(** ** The text shown with a poster *)

Module PageExtras.

Import App Fixtures.

(** X25.  The translation service is consulted only for text with
    content.  With the checkbox off, or for an overview that is absent,
    empty, or empty once stripped, the page shows the overview as it is,
    whatever the service would do; otherwise it shows what the service
    returns for the unstripped text, and an exception of the service is
    not caught. *)
Theorem translation_only_for_text :
  forall (strip : string -> string)
         (translate_to_russian : string -> result string)
         (translate : bool) (overview : option string),
    (translate = false
     \/ overview = None
     \/ overview = Some ""
     \/ (exists text, overview = Some text /\ strip text = "") ->
     movie_overview strip translate_to_russian translate overview = Ok overview)
    /\ (forall text,
          translate = true ->
          overview = Some text ->
          text <> "" ->
          strip text <> "" ->
          movie_overview strip translate_to_russian translate overview
          = (translated <- translate_to_russian text ;; Ok (Some translated))).
Proof.
  intros strip translate_to_russian translate overview. split.
  - unfold movie_overview.
    intros [Ht | [Ho | [Ho | [text [Ho Hs]]]]]; subst.
    + reflexivity.
    + destruct translate; reflexivity.
    + destruct translate; reflexivity.
    + destruct translate; [| reflexivity].
      rewrite Hs. simpl. rewrite andb_false_r. reflexivity.
  - intros text -> -> Ht Hs. unfold movie_overview.
    destruct text; [contradiction |].
    destruct (strip (String a text)); [contradiction |]. reflexivity.
Qed.

Lemma translation_only_for_text_witness :
  movie_overview ascii_strip no_translator true (Some "   ") = Ok (Some "   ")
  /\ movie_overview ascii_strip echo_translator true (Some " x ")
     = (translated <- echo_translator " x " ;; Ok (Some translated)).
Proof.
  split.
  - apply (proj1 (translation_only_for_text ascii_strip no_translator true
                    (Some "   "))).
    right. right. right. exists "   ". split; reflexivity.
  - apply (proj2 (translation_only_for_text ascii_strip echo_translator true
                    (Some " x ")) " x ");
      [reflexivity | reflexivity | discriminate | discriminate].
Defined.

End PageExtras.
